(** * Verification of the inventory/embedding synchronisation of mastra_voice_ecommerce

    Shallow embedding of the TypeScript services:
    - [src/lib/database.ts]            (catalog store, Prisma)
    - [src/lib/pinecone-service.ts]    (vector index adapter)
    - [src/tools/inventory-management.ts]  (executeInventoryUpdate)
    - [src/tools/product-search.ts]    (executeProductSearch)
    - [src/scripts/full-embeddings.ts] (bulk embedding job)
    - [src/agents/ecommerce-agent.ts]  (conversational router)

    The Prisma tables and the Pinecone index are finite maps keyed by id
    (stdpp [gmap]).  Every asynchronous call runs in a state-and-exception
    monad [M] over the [World]; a rejected promise is [Throw], and a
    [try/catch] is [catch_], which keeps the effects committed before the
    throw.  External services (Postgres failures, Ollama, Pinecone failures,
    the wall clock, the random id generator) are fields of an [Env].
    Quantities and prices are integers ([Z]); similarity scores are [Q]. *)

From Stdlib Require Import ZArith QArith Qround String Ascii List Bool Sorted.
From stdpp Require Import base gmap strings list.

Open Scope Z_scope.

(** ** Data model (prisma schema, table [products]) *)

Record Product := mkProduct {
  id : string;
  name : string;
  description : option string;
  sku : string;
  price : Z;
  quantity : Z;
  category : option string;
  brand : option string;
  imageUrl : option string;
  pineconeId : option string;
  hasEmbedding : bool;        (* @default(false) *)
  lastEmbedded : option Z;
  isActive : bool;            (* @default(true) *)
  tags : list string;
  searchKeywords : option string;
  createdAt : Z;
  updatedAt : Z
}.

(** [ProductMetadata] of pinecone-service.ts. *)
Module Metadata.
Record t := mk {
  id : string;
  name : string;
  description : string;
  price : Z;
  quantity : Z;
  category : string;
  brand : string;
  sku : string;
  isActive : bool
}.
End Metadata.

(** One record of the Pinecone index: its vector and its (optional) metadata. *)
Record IndexEntry := mkEntry {
  values : list Z;
  metadata : option Metadata.t
}.

Inductive JobStatus := PENDING | RUNNING | COMPLETED | FAILED.
Inductive JobType := SINGLE_EMBED | BULK_EMBED | REMOVE_EMBED | UPDATE_EMBED.

Record EmbeddingJob := mkJob {
  job_status : JobStatus;
  job_type : JobType;
  totalItems : option Z;
  processedItems : Z;
  errorMessage : option string;
  completedAt : option Z
}.

(** The persistent state: the catalog, the vector index and the job table. *)
Record World := mkWorld {
  products : gmap string Product;
  index : gmap string IndexEntry;
  jobs : gmap nat EmbeddingJob;
  next_job : nat
}.

(** Prisma operations that may reject. *)
Inductive DbOp :=
  | OpGetProduct | OpGetAllProducts | OpCreateProduct | OpUpdateProduct
  | OpUpdateInventory | OpMarkEmbedded | OpMarkNotEmbedded
  | OpCreateJob | OpUpdateJob | OpStats.

(** Pinecone operations that may reject. *)
Inductive PcOp := OpUpsert | OpQuery | OpDelete | OpInit | OpIndexStats.

(** [extractSearchIntent] result (an LLM answer parsed as JSON). *)
Record SearchIntent := mkIntent {
  si_searchTerms : option string;
  si_category : option string;
  si_brand : option string;
  si_priceRange : option (option Z * option Z)
}.

(** The environment: configuration and the behaviour of the external services. *)
Record Env := mkEnv {
  LOW_STOCK_THRESHOLD : Z;
  now : Z;
  db_ok : DbOp -> bool;
  pinecone_ok : PcOp -> bool;
  (** [ollama.embeddings]: [None] when the call rejects. *)
  ollama_embed : string -> option (list Z);
  similarity : list Z -> list Z -> Q;
  extractSearchIntent : string -> SearchIntent;
  (** [product_${Date.now()}_${random}] *)
  fresh_pinecone_id : string -> string;
  (** [ollamaService.ensureModelsExist()] resolves *)
  ollama_ready : bool
}.

(** ** State and exception monad *)

Inductive Result (A : Type) := Ok (a : A) | Throw (msg : string).
Arguments Ok {A} a.
Arguments Throw {A} msg.

Definition M (A : Type) := World -> Result A * World.

Definition ret {A} (a : A) : M A := fun w => (Ok a, w).
Definition throw {A} (msg : string) : M A := fun w => (Throw msg, w).
Definition bind {A B} (c : M A) (k : A -> M B) : M B :=
  fun w => match c w with
           | (Ok a, w') => k a w'
           | (Throw m, w') => (Throw m, w')
           end.
(** [try { c } catch (e) { h(e) }]: the effects of [c] before the throw stay. *)
Definition catch_ {A} (c : M A) (h : string -> M A) : M A :=
  fun w => match c w with
           | (Ok a, w') => (Ok a, w')
           | (Throw m, w') => h m w'
           end.
Definition get : M World := fun w => (Ok w, w).
Definition put (w : World) : M unit := fun _ => (Ok tt, w).

(** [P] holds of every value [c] returns normally, from any state. *)
Definition returns_in {A} (P : A -> Prop) (c : M A) : Prop :=
  forall w a w', c w = (Ok a, w') -> P a.

Notation "x <- c ;; k" := (bind c (fun x => k))
  (at level 100, c at next level, right associativity).
Notation "c ;;; k" := (bind c (fun _ => k))
  (at level 100, right associativity).

Section Services.
Variable env : Env.

Definition guard_db (op : DbOp) : M unit :=
  if db_ok env op then ret tt else throw "prisma error".
Definition guard_pc (op : PcOp) : M unit :=
  if pinecone_ok env op then ret tt else throw "pinecone error".

(** ** DatabaseService (database.ts) *)

Definition set_products (w : World) (ps : gmap string Product) : World :=
  mkWorld ps (index w) (jobs w) (next_job w).
Definition set_index (w : World) (ix : gmap string IndexEntry) : World :=
  mkWorld (products w) ix (jobs w) (next_job w).

(** [prisma.product.update({where:{id}, data})]: rejects on a missing row. *)
Definition prisma_update (op : DbOp) (pid : string) (f : Product -> Product) : M Product :=
  guard_db op;;;
  w <- get;;
  match products w !! pid with
  | None => throw "Record to update not found"
  | Some p => let p' := f p in put (set_products w (<[pid := p']> (products w)));;; ret p'
  end.

Definition getProduct (pid : string) : M (option Product) :=
  guard_db OpGetProduct;;;
  w <- get;;
  ret (products w !! pid).

Record CreateProductInput := mkCreate {
  c_name : string;
  c_description : option string;
  c_sku : string;
  c_price : Z;
  c_quantity : Z;
  c_category : option string;
  c_brand : option string;
  c_imageUrl : option string;
  c_tags : option (list string);
  c_searchKeywords : option string
}.

(** The row Prisma stores for [create({data: {...data, pineconeId}})]: the
    columns not in [data] take their schema defaults. *)
Definition created_row (pid : string) (data : CreateProductInput) : Product :=
  {| id := pid; name := c_name data; description := c_description data;
     sku := c_sku data; price := c_price data; quantity := c_quantity data;
     category := c_category data; brand := c_brand data; imageUrl := c_imageUrl data;
     pineconeId := Some (fresh_pinecone_id env pid);
     hasEmbedding := false; lastEmbedded := None; isActive := true;
     tags := default [] (c_tags data); searchKeywords := c_searchKeywords data;
     createdAt := now env; updatedAt := now env |}.

(** [createProduct]; [pid] is the cuid Prisma generates. *)
Definition createProduct (pid : string) (data : CreateProductInput) : M Product :=
  guard_db OpCreateProduct;;;
  w <- get;;
  match products w !! pid with
  | Some _ => throw "Unique constraint failed"
  | None => let p := created_row pid data in
            put (set_products w (<[pid := p]> (products w)));;; ret p
  end.

Definition with_inventory (q : Z) (t : Z) (p : Product) : Product :=
  {| id := id p; name := name p; description := description p; sku := sku p;
     price := price p; quantity := q; category := category p; brand := brand p;
     imageUrl := imageUrl p; pineconeId := pineconeId p; hasEmbedding := hasEmbedding p;
     lastEmbedded := lastEmbedded p; isActive := Z.gtb q 0; tags := tags p;
     searchKeywords := searchKeywords p; createdAt := createdAt p; updatedAt := t |}.

(** [updateInventory]: [data: {quantity, isActive: quantity > 0, updatedAt}]. *)
Definition updateInventory (pid : string) (q : Z) : M Product :=
  prisma_update OpUpdateInventory pid (with_inventory q (now env)).

(** [markProductEmbedded(id, pineconeId?)]. *)
Definition with_embedded (pcid : option string) (t : Z) (p : Product) : Product :=
  {| id := id p; name := name p; description := description p; sku := sku p;
     price := price p; quantity := quantity p; category := category p; brand := brand p;
     imageUrl := imageUrl p;
     pineconeId := match pcid with
                   | Some s => if String.eqb s "" then pineconeId p else Some s
                   | None => pineconeId p
                   end;
     hasEmbedding := true; lastEmbedded := Some t; isActive := isActive p; tags := tags p;
     searchKeywords := searchKeywords p; createdAt := createdAt p; updatedAt := updatedAt p |}.

Definition markProductEmbedded (pid : string) (pcid : option string) : M Product :=
  prisma_update OpMarkEmbedded pid (with_embedded pcid (now env)).

(** [markProductNotEmbedded]: [hasEmbedding: false, lastEmbedded: null]. *)
Definition with_not_embedded (p : Product) : Product :=
  {| id := id p; name := name p; description := description p; sku := sku p;
     price := price p; quantity := quantity p; category := category p; brand := brand p;
     imageUrl := imageUrl p; pineconeId := pineconeId p;
     hasEmbedding := false; lastEmbedded := None; isActive := isActive p; tags := tags p;
     searchKeywords := searchKeywords p; createdAt := createdAt p; updatedAt := updatedAt p |}.

Definition markProductNotEmbedded (pid : string) : M Product :=
  prisma_update OpMarkNotEmbedded pid with_not_embedded.

(** [updateProduct(id, { pineconeId })], the only use in the bulk job. *)
Definition with_pineconeId (pcid : string) (t : Z) (p : Product) : Product :=
  {| id := id p; name := name p; description := description p; sku := sku p;
     price := price p; quantity := quantity p; category := category p; brand := brand p;
     imageUrl := imageUrl p; pineconeId := Some pcid;
     hasEmbedding := hasEmbedding p; lastEmbedded := lastEmbedded p; isActive := isActive p;
     tags := tags p; searchKeywords := searchKeywords p; createdAt := createdAt p;
     updatedAt := t |}.

Definition updateProductPineconeId (pid : string) (pcid : string) : M Product :=
  prisma_update OpUpdateProduct pid (with_pineconeId pcid (now env)).

(** ** OllamaService.generateEmbedding: rejects on failure or empty vector. *)
Definition generateEmbedding (text : string) : M (list Z) :=
  match ollama_embed env text with
  | Some (x :: xs) => ret (x :: xs)
  | _ => throw "No embedding returned from Ollama"
  end.

(** ** PineconeService (pinecone-service.ts) *)

(** JavaScript truthiness of an optional string. *)
Definition truthy (o : option string) : bool :=
  match o with Some s => negb (String.eqb s "") | None => false end.

(** [a || b] on optional strings. *)
Definition or_str (a b : option string) : option string :=
  if truthy a then a else b.

Definition productMetadata (p : Product) : Metadata.t :=
  {| Metadata.id := id p; Metadata.name := name p;
     Metadata.description := default "" (or_str (description p) (Some ""));
     Metadata.price := price p; Metadata.quantity := quantity p;
     Metadata.category := default "" (or_str (category p) (Some ""));
     Metadata.brand := default "" (or_str (brand p) (Some ""));
     Metadata.sku := sku p; Metadata.isActive := isActive p |}.

(** [product.pineconeId || product.id] *)
Definition vector_id (p : Product) : string :=
  match or_str (pineconeId p) (Some (id p)) with Some s => s | None => id p end.

(** [upsertProduct]: the metadata object is built, but the record sent to
    [index.upsert] is [{ id, values: embedding }]: the [metadata] line is
    commented out in the source. *)
Definition upsertProduct (p : Product) (embedding : list Z) : M bool :=
  let metadata_ := productMetadata p in
  guard_pc OpUpsert;;;
  w <- get;;
  put (set_index w (<[vector_id p := mkEntry embedding None]> (index w)));;;
  ret true.

(** [deleteProduct]: [index.deleteOne(pineconeId)]; deleting a missing id succeeds. *)
Definition deleteProduct (pcid : string) : M bool :=
  guard_pc OpDelete;;;
  w <- get;;
  put (set_index w (delete pcid (index w)));;;
  ret true.

(** Pinecone metadata filters: [{ field: { $op: value, ... }, ... }]. *)
Inductive MValue := VStr (s : string) | VNum (z : Z) | VBool (b : bool).
Inductive FOp := FEq (v : MValue) | FGt (z : Z) | FGte (z : Z) | FLte (z : Z).
Definition Filter := list (string * list FOp).

Definition md_field (m : Metadata.t) (k : string) : option MValue :=
  if String.eqb k "id" then Some (VStr (Metadata.id m))
  else if String.eqb k "name" then Some (VStr (Metadata.name m))
  else if String.eqb k "description" then Some (VStr (Metadata.description m))
  else if String.eqb k "price" then Some (VNum (Metadata.price m))
  else if String.eqb k "quantity" then Some (VNum (Metadata.quantity m))
  else if String.eqb k "category" then Some (VStr (Metadata.category m))
  else if String.eqb k "brand" then Some (VStr (Metadata.brand m))
  else if String.eqb k "sku" then Some (VStr (Metadata.sku m))
  else if String.eqb k "isActive" then Some (VBool (Metadata.isActive m))
  else None.

Definition mvalue_eqb (a b : MValue) : bool :=
  match a, b with
  | VStr x, VStr y => String.eqb x y
  | VNum x, VNum y => Z.eqb x y
  | VBool x, VBool y => Bool.eqb x y
  | _, _ => false
  end.

Definition op_holds (v : MValue) (o : FOp) : bool :=
  match o, v with
  | FEq u, _ => mvalue_eqb v u
  | FGt z, VNum x => Z.gtb x z
  | FGte z, VNum x => Z.geb x z
  | FLte z, VNum x => Z.leb x z
  | _, _ => false
  end.

(** A record matches a filter when every named field exists in its metadata
    and satisfies every operator given for it. *)
Definition matches_filter (md : option Metadata.t) (f : Filter) : bool :=
  forallb (fun '(k, ops) =>
             match md with
             | Some m => match md_field m k with
                         | Some v => forallb (op_holds v) ops
                         | None => false
                         end
             | None => false
             end) f.

(** [{ ...a, ...b }]: keys of [b] override those of [a]. *)
Definition spread (a b : Filter) : Filter :=
  map (fun '(k, v) => match list_find (fun kv => fst kv = k) b with
                      | Some (_, (_, v')) => (k, v')
                      | None => (k, v)
                      end) a
  ++ List.filter (fun kv => negb (existsb (fun kv' => String.eqb (fst kv') (fst kv)) a)) b.

Record Match := mkMatch { m_id : string; m_score : Q; m_metadata : option Metadata.t }.

Fixpoint insert_by_score (x : Match) (l : list Match) : list Match :=
  match l with
  | [] => [x]
  | y :: l' => if Qle_bool (m_score y) (m_score x) then x :: l else y :: insert_by_score x l'
  end.

(** [index.query({ vector, topK, filter, includeMetadata: true })]: the
    records matching the filter, by decreasing similarity, at most [topK]. *)
Definition pinecone_query (vec : list Z) (topK : Z) (f : Filter) : M (list Match) :=
  guard_pc OpQuery;;;
  w <- get;;
  let hits := List.filter (fun kv => matches_filter (metadata kv.2) f) (map_to_list (index w)) in
  let scored := map (fun kv => mkMatch kv.1 (similarity env vec (values kv.2)) (metadata kv.2)) hits in
  ret (take (Z.to_nat topK) (fold_right insert_by_score [] scored)).

Record SearchResult := mkSearchResult {
  sr_id : string; sr_score : Q; sr_metadata : option Metadata.t }.

Definition defaultFilter : Filter :=
  [("isActive", [FEq (VBool true)]); ("quantity", [FGt 0])].

(** [searchProducts(queryEmbedding, { topK, minScore, filter })]. *)
Definition searchProducts (queryEmbedding : list Z) (topK : Z) (minScore : Q) (filt : Filter)
  : M (list SearchResult) :=
  let queryFilter := spread defaultFilter filt in
  matches <- pinecone_query queryEmbedding topK queryFilter;;
  ret (map (fun m => mkSearchResult (m_id m) (m_score m) (m_metadata m))
           (List.filter (fun m => Qle_bool minScore (m_score m)) matches)).

(** ** executeInventoryUpdate (tools/inventory-management.ts) *)

Record InventoryUpdateInput := mkUpdateInput {
  in_productId : string;
  in_quantity : Z;
  in_updateEmbedding : bool
}.

Inductive EmbeddingAction := added | removed | updated | none.

Record StatusChange := mkStatusChange {
  wasActive : bool;
  sc_isActive : bool;
  embeddingAction : EmbeddingAction
}.

Record InventoryUpdateResult := mkUpdateResult {
  success : bool;
  productId : string;
  previousQuantity : Z;
  newQuantity : Z;
  statusChange : option StatusChange;
  error : option string
}.

(** [createProductEmbeddingText] of inventory-management.ts:
    [[name, description, category, brand, ...tags, searchKeywords].filter(Boolean).join(' ')]. *)
Definition createProductEmbeddingText (p : Product) : string :=
  let parts := [Some (name p); description p; category p; brand p]
               ++ map Some (tags p) ++ [searchKeywords p] in
  String.concat " " (omap (fun o => if truthy o then o else None) parts).

(** The body of [if (input.updateEmbedding) { try { ... } }]; the value is
    [embeddingAction] at the end of the [try] block. *)
Definition embedding_sync (input : InventoryUpdateInput) (currentProduct updatedProduct : Product)
  (isOutOfStock isLowStock wasActive isActive_ : bool) : M EmbeddingAction :=
  if isOutOfStock || isLowStock then
    if truthy (pineconeId currentProduct) && hasEmbedding currentProduct then
      match pineconeId currentProduct with
      | Some pcid =>
          deleteProduct pcid;;;
          markProductNotEmbedded (in_productId input);;;
          ret removed
      | None => ret none
      end
    else ret none
  else if negb wasActive && isActive_ then
    let embeddingText := createProductEmbeddingText updatedProduct in
    embedding <- generateEmbedding embeddingText;;
    upsertProduct updatedProduct embedding;;;
    markProductEmbedded (in_productId input) (pineconeId updatedProduct);;;
    ret added
  else if isActive_ && hasEmbedding currentProduct then
    let embeddingText := createProductEmbeddingText updatedProduct in
    embedding <- generateEmbedding embeddingText;;
    upsertProduct updatedProduct embedding;;;
    markProductEmbedded (in_productId input) (pineconeId updatedProduct);;;
    ret updated
  else ret none.

Definition executeInventoryUpdate (input : InventoryUpdateInput) : M InventoryUpdateResult :=
  catch_
    (currentProduct <- getProduct (in_productId input);;
     match currentProduct with
     | None =>
         ret (mkUpdateResult false (in_productId input) 0 (in_quantity input) None
                (Some "Product not found"))
     | Some currentProduct =>
         let previousQuantity := quantity currentProduct in
         let threshold := LOW_STOCK_THRESHOLD env in
         updatedProduct <- updateInventory (in_productId input) (in_quantity input);;
         let wasActive_ := isActive currentProduct in
         let isActive_ := isActive updatedProduct in
         let wasLowStock := Z.ltb previousQuantity threshold in
         let isLowStock := Z.ltb (in_quantity input) threshold in
         let wasOutOfStock := Z.leb previousQuantity 0 in
         let isOutOfStock := Z.leb (in_quantity input) 0 in
         embeddingAction_ <-
           (if in_updateEmbedding input then
              catch_ (embedding_sync input currentProduct updatedProduct
                        isOutOfStock isLowStock wasActive_ isActive_)
                     (fun _ => ret none)
            else ret none);;
         ret (mkUpdateResult true (in_productId input) previousQuantity (in_quantity input)
                (Some (mkStatusChange wasActive_ isActive_ embeddingAction_)) None)
     end)
    (fun msg =>
       ret (mkUpdateResult false (in_productId input) 0 (in_quantity input) None (Some msg))).

(** ** executeProductSearch (tools/product-search.ts) *)

Record ProductSearchInput := mkSearchInput {
  query : string;
  maxResults : Z;
  s_category : option string;
  minPrice : option Z;
  maxPrice : option Z;
  s_brand : option string;
  inStockOnly : bool
}.

Record FoundProduct := mkFound {
  f_id : string; f_name : string; f_description : string; f_price : Z; f_quantity : Z;
  f_category : string; f_brand : string; f_sku : string; relevanceScore : Q }.

(** The [filters] and [suggestions] fields are not modelled: they are
    read-only presentation data and do not influence [products]. *)
Record ProductSearchResult := mkSearchResultOut {
  s_success : bool;
  s_products : list FoundProduct;
  totalFound : Z;
  searchTerms : string;
  s_error : option string
}.

(** JavaScript truthiness of an optional number. *)
Definition truthy_num (o : option Z) : bool :=
  match o with Some z => negb (Z.eqb z 0) | None => false end.

(** [x !== undefined] *)
Definition defined {A} (o : option A) : bool := match o with Some _ => true | None => false end.

Definition buildSearchFilters (input : ProductSearchInput) (si : SearchIntent) : Filter :=
  (if inStockOnly input then [("quantity", [FGt 0]); ("isActive", [FEq (VBool true)])] else [])
  ++ (match or_str (s_category input) (si_category si) with
      | Some c => if truthy (Some c) then [("category", [FEq (VStr c)])] else []
      | None => [] end)
  ++ (match or_str (s_brand input) (si_brand si) with
      | Some b => if truthy (Some b) then [("brand", [FEq (VStr b)])] else []
      | None => [] end)
  ++ (if defined (minPrice input) || defined (maxPrice input) || defined (si_priceRange si) then
        let pmin := match minPrice input with
                    | Some v => [FGte v]
                    | None => match si_priceRange si with
                              | Some (mn, _) => if truthy_num mn then [FGte (default 0 mn)] else []
                              | None => [] end end in
        let pmax := match maxPrice input with
                    | Some v => [FLte v]
                    | None => match si_priceRange si with
                              | Some (_, mx) => if truthy_num mx then [FLte (default 0 mx)] else []
                              | None => [] end end in
        let priceFilter := pmin ++ pmax in
        if negb (Nat.eqb (length priceFilter) 0) then [("price", priceFilter)] else []
      else []).

(** [Math.round(score * 100) / 100] *)
Definition round2 (q : Q) : Q := (inject_Z (Qfloor (q * inject_Z 100 + (1 # 2))) / inject_Z 100)%Q.

(** [searchResults.map(result => ({ id: result.metadata.id, ... }))]: reading a
    field of an undefined [metadata] raises a TypeError. *)
Fixpoint formatResults (rs : list SearchResult) : option (list FoundProduct) :=
  match rs with
  | [] => Some []
  | r :: rs' =>
      match sr_metadata r, formatResults rs' with
      | Some m, Some l =>
          Some (mkFound (Metadata.id m) (Metadata.name m) (Metadata.description m)
                  (Metadata.price m) (Metadata.quantity m) (Metadata.category m)
                  (Metadata.brand m) (Metadata.sku m) (round2 (sr_score r)) :: l)
      | _, _ => None
      end
  end.

Definition executeProductSearch (input : ProductSearchInput) : M ProductSearchResult :=
  catch_
    (let searchIntent := extractSearchIntent env (query input) in
     let terms := match or_str (si_searchTerms searchIntent) (Some (query input)) with
                  | Some t => t | None => query input end in
     searchEmbedding <- generateEmbedding terms;;
     let searchFilters := buildSearchFilters input searchIntent in
     searchResults <- searchProducts searchEmbedding (maxResults input) (6 # 10) searchFilters;;
     match formatResults searchResults with
     | None => throw "Cannot read properties of undefined"
     | Some products_ =>
         ret (mkSearchResultOut true products_ (Z.of_nat (length products_)) terms None)
     end)
    (fun msg => ret (mkSearchResultOut false [] 0 (query input) (Some msg))).

(** ** Bulk embedding job (scripts/full-embeddings.ts) *)

Record EmbeddingProgress := mkProgress {
  total : Z;
  processed : Z;
  successful : Z;
  failed : Z;
  skipped : Z;
  startTime : Z
}.

Definition incr_skipped (p : EmbeddingProgress) : EmbeddingProgress :=
  mkProgress (total p) (processed p) (successful p) (failed p) (skipped p + 1) (startTime p).
Definition incr_successful (p : EmbeddingProgress) : EmbeddingProgress :=
  mkProgress (total p) (processed p) (successful p + 1) (failed p) (skipped p) (startTime p).
Definition incr_failed (p : EmbeddingProgress) : EmbeddingProgress :=
  mkProgress (total p) (processed p) (successful p) (failed p + 1) (skipped p) (startTime p).
Definition incr_processed (p : EmbeddingProgress) : EmbeddingProgress :=
  mkProgress (total p) (processed p + 1) (successful p) (failed p) (skipped p) (startTime p).

(** [progress'] is [progress] after one item: [total] and [processed] kept,
    exactly one of [successful], [failed], [skipped] incremented. *)
Definition one_outcome (progress progress' : EmbeddingProgress) : Prop :=
  total progress' = total progress /\ processed progress' = processed progress /\
  (successful progress' = successful progress + 1 /\ failed progress' = failed progress /\
     skipped progress' = skipped progress \/
   successful progress' = successful progress /\ failed progress' = failed progress + 1 /\
     skipped progress' = skipped progress \/
   successful progress' = successful progress /\ failed progress' = failed progress /\
     skipped progress' = skipped progress + 1).

Definition is_space (c : ascii) : bool :=
  match nat_of_ascii c with (32 | 9 | 10 | 11 | 12 | 13)%nat => true | _ => false end.

Fixpoint drop_spaces (l : list ascii) : list ascii :=
  match l with c :: l' => if is_space c then drop_spaces l' else l | [] => [] end.

(** [String.prototype.trim] on ASCII whitespace. *)
Definition trim (s : string) : string :=
  string_of_list_ascii (rev (drop_spaces (rev (drop_spaces (list_ascii_of_string s))))).

Fixpoint digits_aux (fuel : nat) (n : Z) (acc : string) : string :=
  match fuel with
  | O => acc
  | S f => let acc' := String (ascii_of_nat (48 + Z.to_nat (n mod 10))) acc in
           if n <? 10 then acc' else digits_aux f (n / 10) acc'
  end.

(** Decimal rendering of an integer, as [`${n}`]. *)
Definition string_of_Z (z : Z) : string :=
  let fuel := S (Z.to_nat (Z.log2 (Z.abs z))) in
  if z <? 0 then String "-" (digits_aux fuel (- z) "") else digits_aux fuel z "".

(** [createProductEmbeddingText] of full-embeddings.ts. *)
Definition createFullEmbeddingText (p : Product) : string :=
  let parts := [name p; default "" (or_str (description p) (Some ""));
                default "" (or_str (category p) (Some ""));
                default "" (or_str (brand p) (Some ""))]
               ++ tags p
               ++ [default "" (or_str (searchKeywords p) (Some ""));
                   String.append "SKU: " (sku p); String.append "Price: $" (string_of_Z (price p))] in
  trim (String.concat " " (List.filter (fun part => negb (Nat.eqb (String.length (trim part)) 0)) parts)).

(** [processProductEmbedding(product, progress)]; the shared [progress] object
    is threaded explicitly and returned with the boolean result. *)
Definition processProductEmbedding (product : Product) (progress : EmbeddingProgress)
  : M (bool * EmbeddingProgress) :=
  catch_
    (if negb (isActive product) || (quantity product <=? 0) then
       ret (true, incr_skipped progress)
     else
       let embeddingText := createFullEmbeddingText product in
       if Nat.ltb (String.length (trim embeddingText)) 10 then
         ret (true, incr_skipped progress)
       else
         embedding <- generateEmbedding embeddingText;;
         (if Nat.eqb (length embedding) 0 then throw "Empty embedding returned from Ollama"
          else ret tt);;;
         product' <- (if truthy (pineconeId product) then ret product
                      else let pcid := fresh_pinecone_id env (id product) in
                           updateProductPineconeId (id product) pcid;;;
                           ret (with_pineconeId pcid (updatedAt product) product));;
         upsertProduct product' embedding;;;
         markProductEmbedded (id product') (pineconeId product');;;
         ret (true, incr_successful progress))
    (fun _ => ret (false, incr_failed progress)).

Record JobUpdate := mkJobUpdate {
  ju_status : option JobStatus;
  ju_processedItems : option Z;
  ju_errorMessage : option string;
  ju_completedAt : option Z
}.

Definition apply_job_update (u : JobUpdate) (j : EmbeddingJob) : EmbeddingJob :=
  mkJob (default (job_status j) (ju_status u)) (job_type j) (totalItems j)
        (default (processedItems j) (ju_processedItems u))
        (match ju_errorMessage u with Some e => Some e | None => errorMessage j end)
        (match ju_completedAt u with Some t => Some t | None => completedAt j end).

Definition createEmbeddingJob (jt : JobType) (n : Z) : M nat :=
  guard_db OpCreateJob;;;
  w <- get;;
  let jid := next_job w in
  put (mkWorld (products w) (index w) (<[jid := mkJob PENDING jt (Some n) 0 None None]> (jobs w))
               (S jid));;;
  ret jid.

Definition updateEmbeddingJob (jid : nat) (u : JobUpdate) : M unit :=
  guard_db OpUpdateJob;;;
  w <- get;;
  match jobs w !! jid with
  | None => throw "Record to update not found"
  | Some j => put (mkWorld (products w) (index w) (<[jid := apply_job_update u j]> (jobs w))
                           (next_job w))
  end.

Fixpoint insert_by_updatedAt (p : Product) (l : list Product) : list Product :=
  match l with
  | [] => [p]
  | q :: l' => if updatedAt q <? updatedAt p then p :: l else q :: insert_by_updatedAt p l'
  end.

(** [getAllProducts({ isActive: true, hasStock: false, limit: 10000 })]. *)
Definition getAllActiveProducts (limit : nat) : M (list Product) :=
  guard_db OpGetAllProducts;;;
  w <- get;;
  ret (take limit (fold_right insert_by_updatedAt []
                     (List.filter (fun p => isActive p) (map snd (map_to_list (products w)))))).

(** [allProducts.slice(i, i + batchSize)] for [i = 0, batchSize, ...]. *)
Fixpoint slices {A} (fuel : nat) (n : nat) (l : list A) : list (list A) :=
  match fuel with
  | O => []
  | S f => match l with [] => [] | _ => take n l :: slices f n (drop n l) end
  end.

Fixpoint process_batch (jid : nat) (batch : list Product) (progress : EmbeddingProgress)
  : M EmbeddingProgress :=
  match batch with
  | [] => ret progress
  | product :: rest =>
      r <- processProductEmbedding product progress;;
      let progress' := incr_processed (snd r) in
      (if Z.eqb (processed progress' mod 10) 0
       then updateEmbeddingJob jid (mkJobUpdate None (Some (processed progress')) None None)
       else ret tt);;;
      process_batch jid rest progress'
  end.

Fixpoint process_batches (jid : nat) (batches : list (list Product)) (progress : EmbeddingProgress)
  : M EmbeddingProgress :=
  match batches with
  | [] => ret progress
  | b :: bs => progress' <- process_batch jid b progress;; process_batches jid bs progress'
  end.

(** [generateFullEmbeddings()]; its value is the final [progress] (logged by
    the source), [None] on the early return when no product is found. *)
Definition generateFullEmbeddings : M (option EmbeddingProgress) :=
  let startTime_ := now env in
  (if ollama_ready env then ret tt else throw "ollama error");;;
  guard_pc OpInit;;;
  guard_pc OpIndexStats;;;
  allProducts <- getAllActiveProducts 10000;;
  match allProducts with
  | [] => ret None
  | _ =>
      embeddingJobId <- createEmbeddingJob BULK_EMBED (Z.of_nat (length allProducts));;
      catch_
        (let progress := mkProgress (Z.of_nat (length allProducts)) 0 0 0 0 startTime_ in
         updateEmbeddingJob embeddingJobId (mkJobUpdate (Some RUNNING) None None None);;;
         let batchSize := 5%nat in
         progress' <- process_batches embeddingJobId
                        (slices (length allProducts) batchSize allProducts) progress;;
         guard_pc OpIndexStats;;;
         guard_db OpStats;;;
         updateEmbeddingJob embeddingJobId
           (mkJobUpdate (Some COMPLETED) (Some (processed progress')) None (Some (now env)));;;
         ret (Some progress'))
        (fun msg =>
           updateEmbeddingJob embeddingJobId
             (mkJobUpdate (Some FAILED) None (Some msg) (Some (now env)));;;
           throw msg)
  end.

End Services.

(** ** Conversational router (agents/ecommerce-agent.ts) *)

(** [String.prototype.toLowerCase] on ASCII letters. *)
Definition lower_ascii (c : ascii) : ascii :=
  let n := nat_of_ascii c in
  if Nat.leb 65 n && Nat.leb n 90 then ascii_of_nat (n + 32) else c.

Fixpoint toLowerCase (s : string) : string :=
  match s with EmptyString => EmptyString | String c s' => String (lower_ascii c) (toLowerCase s') end.

(** [s.includes(k)] *)
Fixpoint includes (s k : string) : bool :=
  String.prefix k s || match s with EmptyString => false | String _ s' => includes s' k end.

Definition searchKeywords_ : list string :=
  ["find"; "search"; "looking for"; "need"; "want"; "show me"; "do you have";
   "available"; "sell"; "products"; "items"; "buy"; "purchase"; "browse"].

Definition inventoryKeywords : list string :=
  ["in stock"; "available"; "inventory"; "quantity"; "how many";
   "stock level"; "out of stock"; "sold out"].

Definition requiresProductSearch (message : string) : bool :=
  let lowerMessage := toLowerCase message in
  existsb (fun keyword => includes lowerMessage keyword) searchKeywords_.

Definition requiresInventoryCheck (message : string) : bool :=
  let lowerMessage := toLowerCase message in
  existsb (fun keyword => includes lowerMessage keyword) inventoryKeywords.

(** The handler [processMessage] awaits: [handleProductSearch] (which calls the
    product-search tool), [handleInventoryCheck] (the inventory-check tool) or
    [handleGeneralChat] (a plain [ollamaService.chat] call, no tool). *)
Inductive Handler := handleProductSearch | handleInventoryCheck | handleGeneralChat.

Definition processMessage_handler (userMessage : string) : Handler :=
  let needsProductSearch := requiresProductSearch userMessage in
  let needsInventoryCheck := requiresInventoryCheck userMessage in
  if needsProductSearch then handleProductSearch
  else if needsInventoryCheck then handleInventoryCheck
  else handleGeneralChat.


(** [env] with the wall clock at [t]: the same services, called later. *)
Definition at_time (e : Env) (t : Z) : Env :=
  mkEnv (LOW_STOCK_THRESHOLD e) t (db_ok e) (pinecone_ok e) (ollama_embed e) (similarity e)
        (extractSearchIntent e) (fresh_pinecone_id e) (ollama_ready e).

(** The embedding flags of a catalog row: [(hasEmbedding, pineconeId)]. *)
Definition embedding_flags (w : World) (pid : string) : option (bool * option string) :=
  option_map (fun p => (hasEmbedding p, pineconeId p)) (products w !! pid).

(** ** Further services of the same modules *)

(** [for (const x of xs) { acc = await f(x, acc) }] *)
Fixpoint foldM {A B} (f : A -> B -> M B) (l : list A) (b : B) : M B :=
  match l with
  | [] => ret b
  | x :: l' => b' <- f x b;; foldM f l' b'
  end.

(** [Promise.all(xs.map(f))], the calls run one after the other. *)
Fixpoint mapM {A B} (f : A -> M B) (l : list A) : M (list B) :=
  match l with
  | [] => ret []
  | x :: l' => y <- f x;; ys <- mapM f l';; ret (y :: ys)
  end.

(** The rows of the [products] table. *)
Definition rows (w : World) : list Product := map snd (map_to_list (products w)).

(** [a === b] on a nullable string column and a string. *)
Definition opt_str_eqb (a b : option string) : bool :=
  match a, b with Some x, Some y => String.eqb x y | _, _ => false end.

(** [arr.slice(-n)] *)
Definition slice_last {A} (n : nat) (l : list A) : list A := drop (length l - n) l.

Section Extra.
Variable env : Env.

(** *** PineconeService (pinecone-service.ts) *)

(** [searchByCategory(queryEmbedding, category, topK)]: no [minScore] is
    passed, so [searchProducts] uses its default [0.7]. *)
Definition searchByCategory (queryEmbedding : list Z) (category_ : string) (topK : Z)
  : M (list SearchResult) :=
  searchProducts env queryEmbedding topK (7 # 10) [("category", [FEq (VStr category_)])].

(** [searchByPriceRange(queryEmbedding, minPrice, maxPrice, topK)] *)
Definition searchByPriceRange (queryEmbedding : list Z) (minPrice_ maxPrice_ : Z) (topK : Z)
  : M (list SearchResult) :=
  searchProducts env queryEmbedding topK (7 # 10) [("price", [FGte minPrice_; FLte maxPrice_])].

(** [searchByBrand(queryEmbedding, brand, topK)] *)
Definition searchByBrand (queryEmbedding : list Z) (brand_ : string) (topK : Z)
  : M (list SearchResult) :=
  searchProducts env queryEmbedding topK (7 # 10) [("brand", [FEq (VStr brand_)])].

(** [deleteProducts(pineconeIds)]: [index.deleteMany(pineconeIds)]. *)
Definition deleteProducts (pineconeIds : list string) : M bool :=
  guard_pc env OpDelete;;;
  w <- get;;
  put (set_index w (fold_right delete (index w) pineconeIds));;;
  ret true.

(** *** OllamaService (lib/ollama-service.ts) *)

(** [generateBatchEmbeddings(texts)]: batches of 5, each a [Promise.all] of
    [generateEmbedding] calls, which read and write no state; the
    [catch { throw error }] around the loop rethrows unchanged. *)
Fixpoint embed_batches (batches : list (list string)) (embeddings : list (list Z))
  : M (list (list Z)) :=
  match batches with
  | [] => ret embeddings
  | batch :: rest =>
      batchEmbeddings <- mapM (generateEmbedding env) batch;;
      embed_batches rest (embeddings ++ batchEmbeddings)
  end.

Definition generateBatchEmbeddings (texts : list string) : M (list (list Z)) :=
  let batchSize := 5%nat in
  embed_batches (slices (length texts) batchSize texts) [].

End Extra.

(** [prepareTextForEmbedding]: [text.trim().replace(/\s+/g, ' ')
    .replace(/[^\w\s\-.,!?]/g, '').toLowerCase()], on ASCII text. *)
Definition is_word_char (c : ascii) : bool :=
  let n := nat_of_ascii c in
  (Nat.leb 65 n && Nat.leb n 90) || (Nat.leb 97 n && Nat.leb n 122) ||
  (Nat.leb 48 n && Nat.leb n 57) || Nat.eqb n 95.

(** [/\s+/g -> ' ']; [in_run] is set inside a run of white space. *)
Fixpoint collapse_spaces (in_run : bool) (l : list ascii) : list ascii :=
  match l with
  | [] => []
  | c :: l' =>
      if is_space c then
        if in_run then collapse_spaces true l' else " "%char :: collapse_spaces true l'
      else c :: collapse_spaces false l'
  end.

(** The characters [/[^\w\s\-.,!?]/] does not match. *)
Definition kept_char (c : ascii) : bool :=
  is_word_char c || is_space c ||
  match nat_of_ascii c with (45 | 46 | 44 | 33 | 63)%nat => true | _ => false end.

Definition prepareTextForEmbedding (text : string) : string :=
  string_of_list_ascii
    (map lower_ascii
       (List.filter kept_char (collapse_spaces false (list_ascii_of_string (trim text))))).

Section Extra2.
Variable env : Env.

(** *** DatabaseService reads (database.ts) *)

(** [getProductBySku(sku)]: [findUnique({ where: { sku } })] ([sku] is [@unique]). *)
Definition getProductBySku (s : string) : M (option Product) :=
  guard_db env OpGetProduct;;;
  w <- get;;
  ret (List.find (fun p => String.eqb (sku p) s) (rows w)).

(** [getAllProducts({ isActive = true, hasStock = false, category, limit = 100, offset = 0 })]:
    [findMany({ where, take: limit, skip: offset, orderBy: { updatedAt: 'desc' } })]. *)
Definition getAllProducts (isActive_ hasStock : bool) (category_ : option string) (limit offset : nat)
  : M (list Product) :=
  guard_db env OpGetAllProducts;;;
  w <- get;;
  let where_ := fun p =>
    Bool.eqb (isActive p) isActive_ &&
    (if hasStock then quantity p >? 0 else true) &&
    (if truthy category_ then opt_str_eqb (category p) category_ else true) in
  ret (take limit (drop offset (fold_right insert_by_updatedAt [] (List.filter where_ (rows w))))).

(** [getLowStockProducts(threshold)]: [quantity < threshold], [isActive]. *)
Definition getLowStockProducts (threshold : Z) : M (list Product) :=
  guard_db env OpGetAllProducts;;;
  w <- get;;
  ret (List.filter (fun p => (quantity p <? threshold) && isActive p) (rows w)).

(** [getOutOfStockProducts()]: [quantity <= 0]. *)
Definition getOutOfStockProducts : M (list Product) :=
  guard_db env OpGetAllProducts;;;
  w <- get;;
  ret (List.filter (fun p => quantity p <=? 0) (rows w)).

Record ProductStats := mkProductStats {
  totalProducts : Z;
  activeProducts : Z;
  productsWithEmbeddings : Z;
  lowStockProducts_ : Z;
  outOfStockProducts_ : Z;
  embeddingCoverage : Q
}.

Definition count_rows (f : Product -> bool) (w : World) : Z :=
  Z.of_nat (length (List.filter f (rows w))).

(** [getProductStats()]: five counts read together ([Promise.all]). *)
Definition getProductStats : M ProductStats :=
  guard_db env OpStats;;;
  w <- get;;
  let totalProducts_ := count_rows (fun _ => true) w in
  let activeProducts_ := count_rows isActive w in
  let productsWithEmbeddings_ := count_rows hasEmbedding w in
  let lowStock := count_rows (fun p => (quantity p <? LOW_STOCK_THRESHOLD env) && (quantity p >? 0)) w in
  let outOfStock := count_rows (fun p => quantity p <=? 0) w in
  ret (mkProductStats totalProducts_ activeProducts_ productsWithEmbeddings_ lowStock outOfStock
         (if totalProducts_ >? 0
          then (inject_Z productsWithEmbeddings_ / inject_Z totalProducts_ * inject_Z 100)%Q
          else 0%Q)).

End Extra2.

(** [Array.prototype.sort()] on strings (code-unit order), by insertion. *)
Fixpoint insert_sorted (s : string) (l : list string) : list string :=
  match l with
  | [] => [s]
  | t :: l' => if String.leb s t then s :: l else t :: insert_sorted s l'
  end.

Definition sort_strings (l : list string) : list string := fold_right insert_sorted [] l.

(** [findMany({ where: { field: { not: null }, isActive: true }, select, distinct })
    .map(p => p.field).filter(Boolean).sort()]. *)
Definition distinct_sorted (field : Product -> option string) (w : World) : list string :=
  let selected := remove_dups (map field (List.filter (fun p => isActive p && defined (field p)) (rows w))) in
  sort_strings (omap (fun o => if truthy o then o else None) selected).

Section Extra3.
Variable env : Env.

Definition getCategories : M (list string) :=
  guard_db env OpGetAllProducts;;;
  w <- get;;
  ret (distinct_sorted category w).

Definition getBrands : M (list string) :=
  guard_db env OpGetAllProducts;;;
  w <- get;;
  ret (distinct_sorted brand w).

(** *** executeInventoryCheck (tools/inventory-management.ts) *)

Record InventoryCheckInput := mkCheckInput {
  ck_productId : option string;
  ck_sku : option string;
  ck_threshold : Z
}.

Record CheckedProduct := mkChecked {
  cp_id : string; cp_name : string; cp_sku : string; cp_quantity : Z; cp_isActive : bool;
  isLowStock : bool; isOutOfStock : bool }.

Record LowStockEntry := mkLowStockEntry {
  ls_id : string; ls_name : string; ls_sku : string; ls_quantity : Z }.

Record InventoryCheckResult := mkCheckResult {
  ck_success : bool;
  ck_product : option CheckedProduct;
  lowStockProducts : option (list LowStockEntry);
  ck_error : option string
}.

Definition executeInventoryCheck (input : InventoryCheckInput) : M InventoryCheckResult :=
  catch_
    (if truthy (ck_productId input) || truthy (ck_sku input) then
       product <- (if truthy (ck_productId input) then getProduct env (default "" (ck_productId input))
                   else getProductBySku env (default "" (ck_sku input)));;
       match product with
       | None => ret (mkCheckResult false None None (Some "Product not found"))
       | Some p =>
           ret (mkCheckResult true
                  (Some (mkChecked (id p) (name p) (sku p) (quantity p) (isActive p)
                           ((quantity p <? ck_threshold input) && (quantity p >? 0))
                           (quantity p <=? 0)))
                  None None)
       end
     else
       lows <- getLowStockProducts env (ck_threshold input);;
       ret (mkCheckResult true None
              (Some (map (fun p => mkLowStockEntry (id p) (name p) (sku p) (quantity p)) lows))
              None))
    (fun msg => ret (mkCheckResult false None None (Some msg))).

(** *** executeBulkInventoryUpdate (tools/inventory-management.ts) *)

Record BulkUpdateItem := mkBulkItem { bu_productId : string; bu_quantity : Z }.

Record BulkSummary := mkBulkSummary {
  bs_total : Z; bs_successful : Z; bs_failed : Z; embeddingsUpdated : Z }.

Record BulkUpdateResult := mkBulkResult {
  bulk_success : bool;
  bulk_results : list InventoryUpdateResult;
  summary : BulkSummary;
  bulk_error : option string
}.

Definition action_is_none (a : EmbeddingAction) : bool :=
  match a with none => true | _ => false end.

(** [result.statusChange?.embeddingAction !== 'none']: [undefined !== 'none']
    holds, so a result without [statusChange] is counted. *)
Definition counts_as_embedding_update (r : InventoryUpdateResult) : bool :=
  match statusChange r with
  | Some sc => negb (action_is_none (embeddingAction sc))
  | None => true
  end.

(** The batches of 10; each [Promise.all] of [executeInventoryUpdate] is run
    call after call. *)
Fixpoint bulk_batches (updateEmbeddings : bool) (batches : list (list BulkUpdateItem))
  (results_ : list InventoryUpdateResult) (embeddingsUpdated_ : Z)
  : M (list InventoryUpdateResult * Z) :=
  match batches with
  | [] => ret (results_, embeddingsUpdated_)
  | batch :: rest =>
      batchResults <- mapM (fun u => executeInventoryUpdate env
                                (mkUpdateInput (bu_productId u) (bu_quantity u) updateEmbeddings)) batch;;
      bulk_batches updateEmbeddings rest (results_ ++ batchResults)
        (embeddingsUpdated_ + Z.of_nat (length (List.filter counts_as_embedding_update batchResults)))
  end.

Definition executeBulkInventoryUpdate (updates : list BulkUpdateItem) (updateEmbeddings : bool)
  : M BulkUpdateResult :=
  catch_
    (let batchSize := 10%nat in
     r <- bulk_batches updateEmbeddings (slices (length updates) batchSize updates) [] 0;;
     let results_ := fst r in
     let successful_ := Z.of_nat (length (List.filter success results_)) in
     let failed_ := Z.of_nat (length (List.filter (fun x => negb (success x)) results_)) in
     ret (mkBulkResult true results_
            (mkBulkSummary (Z.of_nat (length results_)) successful_ failed_ (snd r)) None))
    (fun msg => ret (mkBulkResult false [] (mkBulkSummary 0 0 (Z.of_nat (length updates)) 0) (Some msg))).

End Extra3.

(** *** InventoryAgent (agents/inventory-agent.ts, bundled in scripts/full-embeddings.ts) *)

(** [updateProduct(id, { isActive })]: Prisma sets [updatedAt] as well. *)
Definition with_isActive (b : bool) (t : Z) (p : Product) : Product :=
  {| id := id p; name := name p; description := description p; sku := sku p;
     price := price p; quantity := quantity p; category := category p; brand := brand p;
     imageUrl := imageUrl p; pineconeId := pineconeId p;
     hasEmbedding := hasEmbedding p; lastEmbedded := lastEmbedded p; isActive := b;
     tags := tags p; searchKeywords := searchKeywords p; createdAt := createdAt p;
     updatedAt := t |}.

Record AgentUpdateResult := mkAgentUpdate {
  au_success : bool;
  au_message : string;
  recommendations : option (list string)
}.

Record MaintenanceResult := mkMaintenance {
  mt_success : bool;
  mt_processed : Z;
  deactivated : Z;
  embeddingsRemoved : Z;
  mt_message : string
}.

Record SyncResult := mkSync {
  sy_success : bool;
  sy_processed : Z;
  sy_added : Z;
  sy_updated : Z;
  sy_removed : Z;
  sy_message : string
}.

Definition action_name (a : EmbeddingAction) : string :=
  match a with added => "added" | removed => "removed" | updated => "updated" | none => "none" end.

Section Agent.
Variable env : Env.

Definition updateProductIsActive (pid : string) (b : bool) : M Product :=
  prisma_update env OpUpdateProduct pid (with_isActive b (now env)).

(** [processInventoryUpdate(productId, newQuantity)], with
    [autoEmbeddingManagement = true] and [lowStockThreshold] read from the
    environment. *)
Definition processInventoryUpdate (productId_ : string) (newQuantity_ : Z) : M AgentUpdateResult :=
  catch_
    (result <- executeInventoryUpdate env (mkUpdateInput productId_ newQuantity_ true);;
     if negb (success result) then
       ret (mkAgentUpdate false (default "Failed to update inventory"
                                 (or_str (error result) (Some "Failed to update inventory"))) None)
     else
       let message := String.concat "" ["Inventory updated for product "; productId_; ": ";
                                        string_of_Z (previousQuantity result); " → ";
                                        string_of_Z (newQuantity result)] in
       let '(message, recs) :=
         match statusChange result with
         | None => (message, [])
         | Some sc =>
             let '(message, recs) :=
               if wasActive sc && negb (sc_isActive sc) then
                 (String.append message ". Product deactivated due to low/no stock",
                  ["Consider restocking this product"])
               else if negb (wasActive sc) && sc_isActive sc then
                 (String.append message ". Product reactivated and available for search", [])
               else (message, []) in
             let message :=
               if action_is_none (embeddingAction sc) then message
               else String.concat "" [message; ". Search embedding "; action_name (embeddingAction sc)] in
             let recs :=
               if Z.eqb (newQuantity result) 0 then
                 recs ++ ["Product is out of stock - consider emergency restocking";
                          "Check for customer backorders"]
               else if newQuantity result <? LOW_STOCK_THRESHOLD env then
                 recs ++ ["Low stock alert - plan reorder soon";
                          "Consider increasing safety stock for this product"]
               else recs in
             (message, recs)
         end in
       ret (mkAgentUpdate true message (match recs with [] => None | _ => Some recs end)))
    (fun _ => ret (mkAgentUpdate false "Internal error during inventory update" None)).

(** One product of [performLowStockMaintenance]; the counters are
    [(deactivated, embeddingsRemoved)].  An increment made before a
    rejection inside the [try] is kept, hence the inner handler. *)
Definition maintain_product (threshold : Z) (product : Product) (counts : Z * Z) : M (Z * Z) :=
  let '(deactivated_, removed_) := counts in
  catch_
    (deactivated' <- (if (quantity product <=? 0) && isActive product then
                        updateProductIsActive (id product) false;;; ret (deactivated_ + 1)
                      else ret deactivated_);;
     catch_
       (if (quantity product <? threshold) && hasEmbedding product && truthy (pineconeId product) then
          match pineconeId product with
          | Some pcid =>
              deleteProduct env pcid;;;
              markProductNotEmbedded env (id product);;;
              ret (deactivated', removed_ + 1)
          | None => ret (deactivated', removed_)
          end
        else ret (deactivated', removed_))
       (fun _ => ret (deactivated', removed_)))
    (fun _ => ret (deactivated_, removed_)).

Definition performLowStockMaintenance : M MaintenanceResult :=
  catch_
    (let threshold := LOW_STOCK_THRESHOLD env in
     lowStock <- getLowStockProducts env threshold;;
     let batchSize := 50%nat in
     counts <- foldM (fun batch c => foldM (maintain_product threshold) batch c)
                     (slices (length lowStock) batchSize lowStock) (0, 0);;
     let n := Z.of_nat (length lowStock) in
     ret (mkMaintenance true n (fst counts) (snd counts)
            (String.concat "" ["Processed "; string_of_Z n; " low stock products. Deactivated: ";
                               string_of_Z (fst counts); ", Embeddings removed: ";
                               string_of_Z (snd counts)])))
    (fun _ => ret (mkMaintenance false 0 0 0 "Failed to perform low stock maintenance")).

(** One active product of [syncAllEmbeddings]; the counters are
    [(added, updated)].  The agent's private [createProductEmbeddingText] has
    the same body as the tool's. *)
Definition sync_active (product : Product) (counts : Z * Z) : M (Z * Z) :=
  let '(added_, updated_) := counts in
  catch_
    (let embeddingText := createProductEmbeddingText product in
     embedding <- generateEmbedding env embeddingText;;
     upsertProduct env product embedding;;;
     markProductEmbedded env (id product) (pineconeId product);;;
     ret (if negb (hasEmbedding product) then (added_ + 1, updated_) else (added_, updated_ + 1)))
    (fun _ => ret (added_, updated_)).

(** One inactive product of [syncAllEmbeddings]; the counter is [removed]. *)
Definition sync_inactive (product : Product) (removed_ : Z) : M Z :=
  catch_
    (if hasEmbedding product && truthy (pineconeId product) then
       match pineconeId product with
       | Some pcid =>
           deleteProduct env pcid;;;
           markProductNotEmbedded env (id product);;;
           ret (removed_ + 1)
       | None => ret removed_
       end
     else ret removed_)
    (fun _ => ret removed_).

(** [syncAllEmbeddings()]: both [getAllProducts] calls leave [limit] at its
    default, 100. *)
Definition syncAllEmbeddings : M SyncResult :=
  catch_
    (activeProducts <- getAllProducts env true true None 100 0;;
     inactiveProducts <- getAllProducts env false false None 100 0;;
     let batchSize := 50%nat in
     c <- foldM (fun batch c => foldM sync_active batch c)
                (slices (length activeProducts) batchSize activeProducts) (0, 0);;
     removed_ <- foldM (fun batch r => foldM sync_inactive batch r)
                       (slices (length inactiveProducts) batchSize inactiveProducts) 0;;
     let total_ := Z.of_nat (length activeProducts + length inactiveProducts) in
     ret (mkSync true total_ (fst c) (snd c) removed_
            (String.concat "" ["Embedding sync complete. Processed: "; string_of_Z total_;
                               ", Added: "; string_of_Z (fst c); ", Updated: "; string_of_Z (snd c);
                               ", Removed: "; string_of_Z removed_])))
    (fun _ => ret (mkSync false 0 0 0 0 "Failed to sync embeddings")).

End Agent.

(** *** Conversation history of [processMessage] (agents/ecommerce-agent.ts) *)

Record ChatMessage := mkChatMessage { role : string; content : string }.

(** The updates of [conversationHistory] around the handler call of
    [processMessage]; [response] is the string the handler resolved to (each
    handler catches its own errors). *)
Definition record_exchange (history : list ChatMessage) (userMessage response : string)
  : list ChatMessage :=
  let history1 := history ++ [mkChatMessage "user" userMessage] in
  let history2 := history1 ++ [mkChatMessage "assistant" response] in
  if Nat.ltb 20 (length history2) then slice_last 16 history2 else history2.


(** ** Concrete inputs used by the examples below *)

Definition sample_env : Env :=
  mkEnv 5 100 (fun _ => true) (fun _ => true) (fun _ => Some [1; 2; 3]) (fun _ _ => 1%Q)
        (fun q => mkIntent None None None None) (fun pid => String.append "product_" pid) true.

(** The same services, but every Ollama embedding call rejects. *)
Definition ollama_down_env : Env :=
  mkEnv 5 100 (fun _ => true) (fun _ => true) (fun _ => None) (fun _ _ => 1%Q)
        (fun q => mkIntent None None None None) (fun pid => String.append "product_" pid) true.

Definition empty_world : World := mkWorld ∅ ∅ ∅ 0.

Definition headphones : CreateProductInput :=
  mkCreate "Wireless headphones" (Some "Bluetooth over-ear") "SKU-1" 80 0
           (Some "audio") (Some "Acme") None (Some ["wireless"]) None.

(** The catalog after [createProduct] of [headphones] (quantity 0) as "p1". *)
Definition world_created : World :=
  snd (createProduct sample_env "p1" headphones empty_world).

(** The same row with [isActive = false], as [updateInventory(p1, 0)] leaves it. *)
Definition world_deactivated : World :=
  snd (updateInventory sample_env "p1" 0 world_created).

(** [(wasActive, isActive, embeddingAction)] of an update result. *)
Definition status_of (r : Result InventoryUpdateResult) : option (bool * bool * EmbeddingAction) :=
  match r with
  | Ok res => option_map (fun sc => (wasActive sc, sc_isActive sc, embeddingAction sc))
                         (statusChange res)
  | Throw _ => None
  end.

(** An in-stock catalog row with a vector id of its own. *)
Definition speaker : Product :=
  mkProduct "p2" "Portable speaker" (Some "Waterproof") "SKU-2" 45 4 (Some "audio") (Some "Acme")
            None (Some "product_p2") true (Some 100) true [] None 100 100.

(** The same row once it has sold out. *)
Definition speaker_sold_out : Product :=
  mkProduct "p3" "Portable speaker mini" None "SKU-3" 30 0 (Some "audio") (Some "Acme")
            None (Some "product_p3") true (Some 100) false [] None 100 100.

(** An index whose entries carry metadata, as a version of [upsertProduct]
    that sends [metadata] would leave it. *)
Definition indexed_world : World :=
  mkWorld ∅ (<["product_p2" := mkEntry [1; 2; 3] (Some (productMetadata speaker))]>
            (<["product_p3" := mkEntry [1; 2; 3] (Some (productMetadata speaker_sold_out))]> ∅))
          ∅ 0.

Definition speaker_search : ProductSearchInput :=
  mkSearchInput "speaker" 5 None None None None true.

(** A catalog with an out-of-stock row ([p1]) and an in-stock one ([p2]). *)
Definition catalog_world : World :=
  mkWorld (<["p2" := speaker]> (products world_created)) ∅ ∅ 0.

(** * Proofs *)

(** Unfold one monadic run and split every branch it takes. *)
Ltac unfold_run :=
  cbv beta iota zeta delta [ret throw bind catch_ get put guard_db guard_pc
                            set_products set_index with_inventory with_embedded
                            with_not_embedded] in *;
  cbn [products index jobs next_job fst snd in_productId in_quantity in_updateEmbedding
       id name description sku price quantity category brand imageUrl pineconeId
       hasEmbedding lastEmbedded isActive tags searchKeywords createdAt updatedAt
       Z.leb Z.ltb Z.gtb Z.eqb Z.compare Pos.compare Pos.compare_cont orb andb negb] in *.

Ltac split_run :=
  repeat match goal with
         | H : context [match ?x with _ => _ end] |- _ =>
             lazymatch x with
             | (fun _ => _) => fail
             | _ => destruct x eqn:?
             end
         | |- context [match ?x with _ => _ end] => destruct x eqn:?
         end.

Ltac pairs :=
  repeat match goal with
         | H : (_, _) = (_, _) |- _ => inversion H; clear H; subst
         | H : Ok _ = Ok _ |- _ => inversion H; clear H; subst
         | H : Ok _ = Throw _ |- _ => discriminate H
         | H : Throw _ = Ok _ |- _ => discriminate H
         end.

Ltac run_all := repeat progress (unfold_run; split_run; pairs).

(** C3: when [updateInventory(id, q)] returns the updated row, the catalog
    stores that row under [id] with quantity [q] and [isActive = (q > 0)]. *)
Lemma C3_updateInventory_sets_isActive (env : Env) (w w' : World) (pid : string) (q : Z) (p : Product) :
  updateInventory env pid q w = (Ok p, w') ->
  products w' !! pid = Some p /\ quantity p = q /\ isActive p = (q >? 0).
Proof.
  unfold updateInventory, prisma_update. intros H. run_all.
  rewrite lookup_insert_eq. cbn. auto.
Qed.

Ltac unfold_ops :=
  unfold executeInventoryUpdate, embedding_sync, getProduct, updateInventory,
    deleteProduct, markProductNotEmbedded, generateEmbedding,
    upsertProduct, markProductEmbedded in *; unfold prisma_update in *.

(** Evaluate a run forward, splitting on the first blocked test. *)
Ltac fwd :=
  repeat (unfold_run;
          first
          [ rewrite lookup_insert_eq
          | match goal with
          | |- context [match ?x with _ => _ end] =>
              lazymatch x with
              | context [match _ with _ => _ end] => fail
              | _ => destruct x eqn:?
              end
            end ]);
  unfold_run.

Lemma low_stock_update_effects (env : Env) (w : World) (pid : string) (upd : bool) (prod : Product) :
  LOW_STOCK_THRESHOLD env = 5 ->
  products w !! pid = Some prod ->
  match executeInventoryUpdate env (mkUpdateInput pid 3 upd) w with
  | (r, w') =>
      exists res, r = Ok res /\
        (forall sc, statusChange res = Some sc ->
                    embeddingAction sc = removed \/ embeddingAction sc = none) /\
        (index w' = index w \/ exists k, index w' = delete k (index w))
  end.
Proof.
  intros Hth Hp. unfold_ops. rewrite Hth. fwd.
  all: eexists; split; [reflexivity |]; split;
       [ intros ? Hsc; cbn in Hsc; try discriminate; injection Hsc as <-; cbn; auto
       | eauto ].
Qed.

(** C1: with [LOW_STOCK_THRESHOLD = 5], an update of a product from quantity 0
    to 3 always returns a result, its embedding action is [removed] or
    [none] (never [added]), and no vector is upserted: the index after the
    update is the index before, or it with one entry deleted. *)
Lemma C1_low_stock_never_added (env : Env) (w w' : World) (pid : string) (upd : bool)
  (prod : Product) (r : Result InventoryUpdateResult) :
  LOW_STOCK_THRESHOLD env = 5 ->
  products w !! pid = Some prod ->
  quantity prod = 0 ->
  executeInventoryUpdate env (mkUpdateInput pid 3 upd) w = (r, w') ->
  exists res, r = Ok res /\
    (forall sc, statusChange res = Some sc ->
                embeddingAction sc = removed \/ embeddingAction sc = none) /\
    (index w' = index w \/ exists k, index w' = delete k (index w)).
Proof.
  intros Hth Hp _ H.
  pose proof (low_stock_update_effects env w pid upd prod Hth Hp) as G.
  rewrite H in G. exact G.
Qed.

(** C10: [createProduct] stores the schema default [isActive = true] whatever
    the quantity: a product created with quantity 0 is active, so
    [isActive = (quantity > 0)] does not hold for it. *)
Lemma C10_createProduct_zero_quantity_active (env : Env) (pid : string)
  (data : CreateProductInput) (w w' : World) (p : Product) :
  c_quantity data = 0 ->
  createProduct env pid data w = (Ok p, w') ->
  products w' !! pid = Some p /\ quantity p = 0 /\ isActive p = true /\
  isActive p <> (quantity p >? 0).
Proof.
  intros Hq H. unfold createProduct in H. unfold_run.
  destruct (db_ok env OpCreateProduct); unfold_run; [| discriminate].
  destruct (products w !! pid); unfold_run; [discriminate |].
  injection H as <- <-. cbn. rewrite lookup_insert_eq, Hq.
  repeat split; try discriminate; auto.
Qed.

(** C9 (as stated: a tie goes to plain chat).  The message
    "is it available?" matches both keyword sets ("available" is in both),
    and [processMessage] dispatches it to the product-search handler. *)
Lemma C9_tie_dispatches_to_search :
  requiresProductSearch "is it available?" = true /\
  requiresInventoryCheck "is it available?" = true /\
  processMessage_handler "is it available?" = handleProductSearch.
Proof. vm_compute. auto. Qed.

(** C9 (amended): the search-keyword test has priority.  [processMessage]
    dispatches to the product-search tool exactly when the search set
    matches (whether or not the inventory set also does), to the inventory
    tool exactly when only the inventory set matches, and to plain chat
    with no tool exactly when neither set matches. *)
Lemma C9_router_priority (msg : string) :
  (processMessage_handler msg = handleProductSearch <-> requiresProductSearch msg = true) /\
  (processMessage_handler msg = handleInventoryCheck <->
     requiresProductSearch msg = false /\ requiresInventoryCheck msg = true) /\
  (processMessage_handler msg = handleGeneralChat <->
     requiresProductSearch msg = false /\ requiresInventoryCheck msg = false).
Proof.
  unfold processMessage_handler.
  destruct (requiresProductSearch msg), (requiresInventoryCheck msg);
    repeat split; intros; try discriminate; try tauto; try (destruct H; discriminate).
Qed.

(** C4 (as stated: previous quantity 0, new 10, threshold 5 always adds).
    A product created with quantity 0 keeps [isActive = true]; updating it
    to 10 computes [wasActive = true] from the stored flag, so neither the
    add nor the refresh branch runs and the action is [none]. *)
Lemma C4_counterexample :
  option_map quantity (products world_created !! "p1") = Some 0 /\
  status_of (fst (executeInventoryUpdate sample_env (mkUpdateInput "p1" 10 true) world_created))
    = Some (true, true, none).
Proof. vm_compute. split; reflexivity. Qed.

(** C4 (amended): with threshold 5, previous quantity 0 and a stored
    [isActive = false], an update to 10 with [updateEmbedding] set and all
    services answering performs the ADD action: the embedding of the updated
    product's text is upserted under its [pineconeId || id], the product is
    marked embedded, and the result reports [wasActive = false] (the stored
    flag), [isActive = true] and action [added]. *)
Lemma C4_add_when_stored_inactive (env : Env) (w : World) (pid : string) (prod : Product)
  (emb : list Z) :
  LOW_STOCK_THRESHOLD env = 5 ->
  products w !! pid = Some prod ->
  quantity prod = 0 ->
  isActive prod = false ->
  db_ok env OpGetProduct = true ->
  db_ok env OpUpdateInventory = true ->
  db_ok env OpMarkEmbedded = true ->
  pinecone_ok env OpUpsert = true ->
  ollama_embed env (createProductEmbeddingText (with_inventory 10 (now env) prod)) = Some emb ->
  emb <> [] ->
  match executeInventoryUpdate env (mkUpdateInput pid 10 true) w with
  | (r, w') =>
      r = Ok (mkUpdateResult true pid 0 10 (Some (mkStatusChange false true added)) None) /\
      index w' !! vector_id (with_inventory 10 (now env) prod) = Some (mkEntry emb None) /\
      exists p', products w' !! pid = Some p' /\ hasEmbedding p' = true /\
                 quantity p' = 10 /\ isActive p' = true
  end.
Proof.
  intros Hth Hp Hq Ha Hg Hu Hm Hup He Hne.
  destruct emb as [| x xs]; [congruence |].
  unfold_ops. rewrite Hth. unfold_run. rewrite Hg, Hp. unfold_run. rewrite Hu. fwd.
  all: repeat match goal with H : Some _ = Some _ |- _ => injection H as H; subst end.
  all: try congruence.
  all: try (rewrite Ha in *; discriminate).
  all: try match goal with
         | H1 : ollama_embed _ _ = Some (?a :: ?b), H2 : ollama_embed _ _ = Some (?c :: ?d) |- _ =>
             assert (E : c :: d = a :: b) by congruence; injection E as -> ->; clear H2
         end.
  all: rewrite ?Hq, ?Ha;
       repeat match goal with H : pineconeId _ = _ |- _ => rewrite H end.
  all: split; [reflexivity |]; split;
       [ match goal with
         | |- <[?k1 := _]> _ !! ?k2 = _ =>
             replace k2 with k1 by (unfold vector_id; cbn [pineconeId id];
               repeat match goal with H : pineconeId _ = _ |- _ => rewrite H end;
               reflexivity)
         end; rewrite lookup_insert_eq; reflexivity
       | eexists; repeat split ].
Qed.



(** C5: once the product is read and its new quantity written, the update
    succeeds whatever the embedding provider, the vector index and the
    embedding-flag writes do (each may reject): the result is
    [success = true] with the stored previous quantity and the new quantity,
    and the catalog keeps the new quantity with [isActive = (q > 0)]. *)
Lemma C5_embedding_errors_swallowed (env : Env) (w : World) (pid : string) (q : Z) (upd : bool)
  (prod : Product) :
  db_ok env OpGetProduct = true ->
  db_ok env OpUpdateInventory = true ->
  products w !! pid = Some prod ->
  match executeInventoryUpdate env (mkUpdateInput pid q upd) w with
  | (r, w') =>
      (exists sc, r = Ok (mkUpdateResult true pid (quantity prod) q (Some sc) None)) /\
      exists p', products w' !! pid = Some p' /\ quantity p' = q /\ isActive p' = (q >? 0)
  end.
Proof.
  intros Hg Hu Hp. unfold_ops.
  unfold_run. rewrite Hg, Hp. unfold_run. rewrite Hu. fwd.
  all: repeat match goal with H : Some _ = Some _ |- _ => injection H as H; subst end.
  all: try congruence.
  all: split; [eexists; reflexivity |].
  all: eexists; rewrite ?lookup_insert_eq; split; [reflexivity | cbn; split; reflexivity].
Qed.

(** Like [fwd], but a test already decided on this path (up to conversion)
    is rewritten with its known outcome instead of being split again. *)
Ltac fwd2 :=
  repeat (unfold_run;
          first
          [ rewrite lookup_insert_eq
          | match goal with
            | H : ?y = ?v |- context [match ?x with _ => _ end] =>
                lazymatch v with context [match _ with _ => _ end] => fail | _ => idtac end;
                lazymatch x with context [match _ with _ => _ end] => fail | _ => idtac end;
                unify x y; change x with y; rewrite H
            end
          | match goal with
            | |- context [match ?x with _ => _ end] =>
                lazymatch x with
                | context [match _ with _ => _ end] => fail
                | _ => destruct x eqn:?
                end
            end ]);
  unfold_run.

(** C7: running [executeInventoryUpdate(productId, q)] a second time, on the
    state left by the first run and with the same services (only the clock
    differs), leaves the vector index and the row's embedding flags
    [(hasEmbedding, pineconeId)] as the first run left them.  This holds for
    every outcome of the services, including rejected calls, as long as
    they answer the second run as they answered the first. *)
Lemma C7_reconcile_idempotent (env : Env) (t : Z) (w : World) (pid : string) (q : Z) (upd : bool) :
  match executeInventoryUpdate env (mkUpdateInput pid q upd) w with
  | (_, w1) =>
      match executeInventoryUpdate (at_time env t) (mkUpdateInput pid q upd) w1 with
      | (_, w2) => index w2 = index w1 /\ embedding_flags w2 pid = embedding_flags w1 pid
      end
  end.
Proof.
  unfold_ops. unfold at_time. fwd2.
  all: try (exfalso; rewrite ?andb_false_r, ?andb_true_r in *; congruence).
  all: try (exfalso; match goal with H : negb ?b && ?b = true |- _ => destruct b; discriminate H end).
  all: unfold embedding_flags; cbn [products index];
       rewrite ?lookup_insert_eq, ?delete_delete_eq, ?insert_insert_eq; cbn.
  all: split; reflexivity.
Qed.

(** ** Search results and the in-stock filter *)

Lemma in_firstn_in {A} (n : nat) (l : list A) (x : A) : In x (firstn n l) -> In x l.
Proof.
  revert l. induction n as [| n IH]; intros [| y l]; simpl; try tauto.
  intros [-> | H]; [left; reflexivity | right; apply IH, H].
Qed.

Lemma in_insert_by_score (x y : Match) (l : list Match) :
  In y (insert_by_score x l) -> y = x \/ In y l.
Proof.
  induction l as [| z l IH]; simpl.
  - intros [-> | []]; auto.
  - destruct (Qle_bool (m_score z) (m_score x)); simpl.
    + intros [-> | [-> | H]]; auto.
    + intros [-> | H]; auto. destruct (IH H); auto.
Qed.

Lemma in_sorted_matches (y : Match) (l : list Match) :
  In y (fold_right insert_by_score [] l) -> In y l.
Proof.
  induction l as [| x l IH]; simpl; [tauto |].
  intros H. destruct (in_insert_by_score x y _ H); auto.
Qed.

(** Every match the index returns satisfies the query filter. *)
Lemma pinecone_query_matches (env : Env) (vec : list Z) (topK : Z) (f : Filter) (w w' : World)
  (ms : list Match) :
  pinecone_query env vec topK f w = (Ok ms, w') ->
  forall m, In m ms -> matches_filter (m_metadata m) f = true.
Proof.
  unfold pinecone_query. unfold_run.
  destruct (pinecone_ok env OpQuery); unfold_run; [| discriminate].
  intros H. injection H as <- <-. intros m Hm.
  apply in_firstn_in, in_sorted_matches, in_map_iff in Hm.
  destruct Hm as [kv [<- Hkv]]. apply filter_In in Hkv. cbn. tauto.
Qed.

Lemma matches_filter_quantity (md : option Metadata.t) (f : Filter) :
  matches_filter md f = true -> In ("quantity", [FGt 0]) f ->
  exists m, md = Some m /\ Metadata.quantity m > 0.
Proof.
  unfold matches_filter. intros H Hin.
  apply forallb_forall with (x := ("quantity", [FGt 0])) in H; [| exact Hin].
  destruct md as [m |]; [| discriminate]. exists m. split; [reflexivity |].
  cbn in H. rewrite andb_true_r in H. apply Z.gtb_lt in H. lia.
Qed.

(** With [inStockOnly], the merged query filter carries [quantity > 0] and
    [isActive == true]. *)
Lemma in_stock_filters (input : ProductSearchInput) (si : SearchIntent) :
  inStockOnly input = true ->
  In ("quantity", [FGt 0]) (spread defaultFilter (buildSearchFilters input si)) /\
  In ("isActive", [FEq (VBool true)]) (spread defaultFilter (buildSearchFilters input si)).
Proof.
  intros H. unfold buildSearchFilters. rewrite H.
  unfold spread, defaultFilter. cbn [map app]. simpl. split.
  - right. left. reflexivity.
  - left. reflexivity.
Qed.

(** Every result of [searchProducts] satisfies the merged query filter. *)
Lemma searchProducts_matches (env : Env) (vec : list Z) (topK : Z) (minScore : Q) (filt : Filter)
  (w w' : World) (rs : list SearchResult) :
  searchProducts env vec topK minScore filt w = (Ok rs, w') ->
  forall r, In r rs -> matches_filter (sr_metadata r) (spread defaultFilter filt) = true.
Proof.
  unfold searchProducts, bind.
  destruct (pinecone_query env vec topK (spread defaultFilter filt) w) as [[ms | m] w1] eqn:E;
    unfold ret; intros H; [| discriminate].
  injection H as <- <-. intros r Hr.
  apply in_map_iff in Hr. destruct Hr as [m [<- Hm]]. apply filter_In in Hm.
  cbn. exact (pinecone_query_matches env vec topK _ w w1 ms E m (proj1 Hm)).
Qed.

Lemma formatResults_in (rs : list SearchResult) (l : list FoundProduct) (fp : FoundProduct) :
  formatResults rs = Some l -> In fp l ->
  exists r m, In r rs /\ sr_metadata r = Some m /\ f_quantity fp = Metadata.quantity m.
Proof.
  revert l. induction rs as [| r rs IH]; intros l; simpl.
  - intros H. injection H as <-. intros [].
  - destruct (sr_metadata r) as [m |] eqn:Em; [| discriminate].
    destruct (formatResults rs) as [l' |]; [| discriminate].
    intros H. injection H as <-. intros [<- | Hin].
    + exists r, m. auto.
    + destruct (IH l' eq_refl Hin) as [r' [m' [? ?]]]. exists r', m'. tauto.
Qed.

(** C8: with [inStockOnly = true], whatever the query text and the category,
    brand and price filters, every product that [executeProductSearch] returns
    has a quantity greater than 0; the query sent to the index carries the
    filters [quantity > 0] and [isActive = true]. *)
Theorem C8_in_stock_only_positive_quantity (env : Env) (input : ProductSearchInput) (w w' : World)
  (res : ProductSearchResult) :
  inStockOnly input = true ->
  executeProductSearch env input w = (Ok res, w') ->
  (forall fp, In fp (s_products res) -> f_quantity fp > 0) /\
  (forall si, In ("quantity", [FGt 0]) (spread defaultFilter (buildSearchFilters input si)) /\
              In ("isActive", [FEq (VBool true)]) (spread defaultFilter (buildSearchFilters input si))).
Proof.
  intros Hin H. split; [| intros si; apply in_stock_filters, Hin].
  unfold executeProductSearch, catch_, bind, generateEmbedding in H.
  destruct (ollama_embed env _) as [[| x xs] |];
    try (unfold throw, ret in H; injection H as <- <-; intros fp []).
  unfold ret at 1 in H.
  match type of H with
  | context [searchProducts ?e ?v ?k ?s ?f w] =>
      destruct (searchProducts e v k s f w) as [[rs | m] w1] eqn:Es
  end.
  2: { unfold ret in H. injection H as <- <-. intros fp []. }
  destruct (formatResults rs) as [l |] eqn:Ef.
  2: { unfold throw, ret in H. injection H as <- <-. intros fp []. }
  unfold ret in H. injection H as <- <-. cbn [s_products]. intros fp Hfp.
  destruct (formatResults_in rs l fp Ef Hfp) as [r [m [Hr [Hm ->]]]].
  pose proof (searchProducts_matches _ _ _ _ _ _ _ _ Es r Hr) as Hmatch.
  destruct (matches_filter_quantity _ _ Hmatch
              (proj1 (in_stock_filters input (extractSearchIntent env (query input)) Hin)))
    as [m' [Hm' Hq]].
  rewrite Hm in Hm'. injection Hm' as <-. exact Hq.
Qed.

Lemma C8_in_stock_only_positive_quantity_witness :
  exists res w',
    executeProductSearch sample_env speaker_search indexed_world = (Ok res, w') /\
    map f_id (s_products res) = ["p2"] /\
    (forall fp, In fp (s_products res) -> f_quantity fp > 0).
Proof.
  eexists. eexists. split; [vm_compute; reflexivity |]. split; [vm_compute; reflexivity |].
  apply (proj1 (C8_in_stock_only_positive_quantity sample_env speaker_search indexed_world _ _
                  eq_refl ltac:(vm_compute; reflexivity))).
Defined.

(** ** Round trip through the vector index *)

(** The index answers a query with its own entries, unchanged. *)
Lemma pinecone_query_from_index (env : Env) (vec : list Z) (topK : Z) (f : Filter) (w w' : World)
  (ms : list Match) :
  pinecone_query env vec topK f w = (Ok ms, w') ->
  w' = w /\ forall m, In m ms -> exists e, index w !! m_id m = Some e /\ m_metadata m = metadata e.
Proof.
  unfold pinecone_query. unfold_run.
  destruct (pinecone_ok env OpQuery); unfold_run; [| discriminate].
  intros H. injection H as <- <-. split; [reflexivity |]. intros m Hm.
  apply in_firstn_in, in_sorted_matches, in_map_iff in Hm.
  destruct Hm as [[k e] [<- Hkv]]. apply filter_In in Hkv. destruct Hkv as [Hkv _].
  exists e. cbn. split; [apply elem_of_map_to_list, list_elem_of_In, Hkv | reflexivity].
Qed.

Lemma searchProducts_from_index (env : Env) (vec : list Z) (topK : Z) (minScore : Q) (filt : Filter)
  (w w' : World) (rs : list SearchResult) :
  searchProducts env vec topK minScore filt w = (Ok rs, w') ->
  forall r, In r rs -> exists e, index w !! sr_id r = Some e /\ sr_metadata r = metadata e.
Proof.
  unfold searchProducts, bind.
  destruct (pinecone_query env vec topK (spread defaultFilter filt) w) as [[ms | m] w1] eqn:E;
    unfold ret; intros H; [| discriminate].
  injection H as <- <-. intros r Hr.
  apply in_map_iff in Hr. destruct Hr as [m [<- Hm]]. apply filter_In in Hm.
  exact (proj2 (pinecone_query_from_index env vec topK _ w w1 ms E) m (proj1 Hm)).
Qed.

(** The default filter keeps [isActive] and [quantity], so no record without
    metadata passes the filter of a search. *)
Lemma search_filter_needs_metadata (filt : Filter) :
  matches_filter None (spread defaultFilter filt) = false.
Proof.
  unfold spread, defaultFilter. cbn [map app].
  destruct (list_find _ filt) as [[? [? ?]] |]; reflexivity.
Qed.

Lemma upsertProduct_entry (env : Env) (p : Product) (v : list Z) (w w' : World) (u : bool) :
  upsertProduct env p v w = (Ok u, w') ->
  index w' !! vector_id p = Some (mkEntry v None).
Proof.
  unfold upsertProduct. unfold_run.
  destruct (pinecone_ok env OpUpsert); unfold_run; [| discriminate].
  intros H. injection H as _ <-. cbn. apply lookup_insert_eq.
Qed.

(** C2 (refuted by the code): after [upsertProduct(P, v)] stores P's vector,
    no [searchProducts] call, whatever its vector, [topK], minimum score or
    filter, returns P: the upsert sends the vector without its metadata, and
    the default filter [isActive = true, quantity > 0] that every search
    carries rejects a record without metadata. *)
Theorem C2_upserted_product_never_returned (env : Env) (p : Product) (v : list Z) (u : bool)
  (w w1 w2 : World) (vec : list Z) (topK : Z) (minScore : Q) (filt : Filter)
  (rs : list SearchResult) :
  upsertProduct env p v w = (Ok u, w1) ->
  searchProducts env vec topK minScore filt w1 = (Ok rs, w2) ->
  forall r, In r rs -> sr_id r <> vector_id p.
Proof.
  intros Hup Hs r Hr Hid.
  pose proof (searchProducts_matches _ _ _ _ _ _ _ _ Hs r Hr) as Hm.
  destruct (searchProducts_from_index _ _ _ _ _ _ _ _ Hs r Hr) as [e [He Hmd]].
  rewrite Hid, (upsertProduct_entry _ _ _ _ _ _ Hup) in He. injection He as <-.
  rewrite Hmd in Hm. cbn [metadata] in Hm.
  rewrite search_filter_needs_metadata in Hm. discriminate.
Qed.

Lemma C2_upserted_product_never_returned_witness :
  upsertProduct sample_env speaker [1; 2; 3] empty_world
    = (Ok true, snd (upsertProduct sample_env speaker [1; 2; 3] empty_world)) /\
  searchProducts sample_env [1; 2; 3] 10 (6 # 10) [("category", [FEq (VStr "audio")])]
    (snd (upsertProduct sample_env speaker [1; 2; 3] empty_world))
    = (Ok [], snd (upsertProduct sample_env speaker [1; 2; 3] empty_world)) /\
  (forall r, In r [] -> sr_id r <> vector_id speaker).
Proof.
  split; [vm_compute; reflexivity |]. split; [vm_compute; reflexivity |].
  apply (C2_upserted_product_never_returned sample_env speaker [1; 2; 3] true empty_world
           (snd (upsertProduct sample_env speaker [1; 2; 3] empty_world))
           (snd (upsertProduct sample_env speaker [1; 2; 3] empty_world))
           [1; 2; 3] 10 (6 # 10) [("category", [FEq (VStr "audio")])] []);
    vm_compute; reflexivity.
Defined.

(** ** Counters of the bulk embedding job *)

Lemma returns_in_ret {A} (P : A -> Prop) (a : A) : P a -> returns_in P (ret a).
Proof. intros Ha w b w' H. injection H as <- _. exact Ha. Qed.

Lemma returns_in_throw {A} (P : A -> Prop) (m : string) : returns_in P (throw m).
Proof. intros w b w' H. discriminate. Qed.

Lemma returns_in_bind {A B} (Q : A -> Prop) (P : B -> Prop) (c : M A) (k : A -> M B) :
  returns_in Q c -> (forall x, Q x -> returns_in P (k x)) -> returns_in P (bind c k).
Proof.
  intros Hc Hk w b w' H. unfold bind in H.
  destruct (c w) as [[x | m] w1] eqn:E; [| discriminate].
  exact (Hk x (Hc w x w1 E) w1 b w' H).
Qed.

Lemma returns_in_true {A} (c : M A) : returns_in (fun _ => True) c.
Proof. intros w a w' _. exact I. Qed.

Lemma returns_in_catch {A} (P : A -> Prop) (c : M A) (h : string -> M A) :
  returns_in P c -> (forall m, returns_in P (h m)) -> returns_in P (catch_ c h).
Proof.
  intros Hc Hh w a w' H. unfold catch_ in H.
  destruct (c w) as [[x | m] w1] eqn:E.
  - injection H as <- _. exact (Hc w x w1 E).
  - exact (Hh m w1 a w' H).
Qed.

Lemma returns_in_weaken {A} (P Q : A -> Prop) (c : M A) :
  returns_in Q c -> (forall a, Q a -> P a) -> returns_in P c.
Proof. intros Hc HQ w a w' H. exact (HQ a (Hc w a w' H)). Qed.

(** Walks a program whose returned values are all literal: binds whose result
    is not used, branches, handlers and [ret]. *)
Ltac returns_walk :=
  repeat match goal with
  | |- returns_in _ (bind _ _) => apply (returns_in_bind (fun _ => True)); [apply returns_in_true | intros ? _]
  | |- returns_in _ (catch_ _ _) => apply returns_in_catch; [| intros ?]
  | |- returns_in _ (ret _) => apply returns_in_ret
  | |- returns_in _ (throw _) => apply returns_in_throw
  | |- returns_in _ (if ?b then _ else _) => destruct b
  | |- returns_in _ (let _ := _ in _) => cbv zeta
  end.

Lemma processProductEmbedding_one_outcome (env : Env) (product : Product) (progress : EmbeddingProgress) :
  returns_in (fun r => one_outcome progress (snd r)) (processProductEmbedding env product progress).
Proof.
  unfold processProductEmbedding. returns_walk;
    unfold one_outcome; cbn; lia.
Qed.

Lemma process_batch_counts (env : Env) (jid : nat) (batch : list Product) (progress : EmbeddingProgress) :
  returns_in (fun p' =>
      total p' = total progress /\
      processed p' = processed progress + Z.of_nat (length batch) /\
      (successful p' + failed p' + skipped p'
        = successful progress + failed progress + skipped progress + Z.of_nat (length batch))%Z)
    (process_batch env jid batch progress).
Proof.
  revert progress. induction batch as [| product rest IH]; intros progress; cbn [process_batch].
  - apply returns_in_ret. cbn [length]. lia.
  - apply (returns_in_bind _ _ _ _ (processProductEmbedding_one_outcome env product progress)).
    intros r Hr. apply (returns_in_bind (fun _ => True)); [apply returns_in_true | intros _ _].
    eapply returns_in_weaken; [apply IH |]. intros p' Hp'.
    unfold one_outcome, incr_processed in *. cbn [total processed successful failed skipped] in *.
    rewrite length_cons, Nat2Z.inj_succ. lia.
Qed.

Lemma process_batches_counts (env : Env) (jid : nat) (batches : list (list Product))
  (progress : EmbeddingProgress) :
  returns_in (fun p' =>
      total p' = total progress /\
      processed p' = processed progress + Z.of_nat (list_sum (map length batches)) /\
      (successful p' + failed p' + skipped p'
        = successful progress + failed progress + skipped progress
          + Z.of_nat (list_sum (map length batches)))%Z)
    (process_batches env jid batches progress).
Proof.
  revert progress. induction batches as [| b bs IH]; intros progress; cbn [process_batches].
  - apply returns_in_ret. cbn. lia.
  - apply (returns_in_bind _ _ _ _ (process_batch_counts env jid b progress)).
    intros p1 H1. eapply returns_in_weaken; [apply IH |]. intros p' Hp'.
    cbv beta in Hp'.
    change (list_sum (map length (b :: bs))) with (length b + list_sum (map length bs))%nat. lia.
Qed.

Lemma slices_cover {A} (fuel n : nat) (l : list A) :
  (0 < n)%nat -> (length l <= fuel)%nat -> list_sum (map length (slices fuel n l)) = length l.
Proof.
  revert l. induction fuel as [| f IH]; intros l Hn Hl.
  - destruct l; cbn in *; lia.
  - destruct l as [| x l']; [reflexivity |].
    change (list_sum (map length (slices (S f) n (x :: l'))))
      with (length (take n (x :: l')) + list_sum (map length (slices f n (drop n (x :: l')))))%nat.
    rewrite IH; [| exact Hn |].
    + rewrite length_take, length_drop. lia.
    + rewrite length_drop. cbn [length] in *. lia.
Qed.

Lemma generateFullEmbeddings_counts (env : Env) :
  returns_in (fun o => match o with
                       | Some pr => processed pr = successful pr + failed pr + skipped pr /\
                                    processed pr = total pr
                       | None => True
                       end) (generateFullEmbeddings env).
Proof.
  unfold generateFullEmbeddings. cbv zeta.
  do 3 (apply (returns_in_bind (fun _ => True)); [apply returns_in_true | intros ? _]).
  apply (returns_in_bind (fun _ => True)); [apply returns_in_true | intros allProducts _].
  destruct allProducts as [| p ps]; [apply returns_in_ret; exact I |].
  apply (returns_in_bind (fun _ => True)); [apply returns_in_true | intros jid _].
  apply returns_in_catch; [| intros m; returns_walk].
  apply (returns_in_bind (fun _ => True)); [apply returns_in_true | intros ? _].
  apply (returns_in_bind _ _ _ _ (process_batches_counts env jid _ _)).
  intros pr Hpr. cbv beta in Hpr. returns_walk.
  rewrite (slices_cover (length (p :: ps)) 5 (p :: ps) ltac:(lia) (le_n _)) in Hpr.
  cbn [total processed successful failed skipped] in Hpr. lia.
Qed.

(** C6: when [generateFullEmbeddings] runs to completion (it returns its final
    progress and no exception escapes), the counters satisfy
    [processed = successful + failed + skipped] and [processed = total]. *)
Theorem C6_bulk_job_counters (env : Env) (w w' : World) (pr : EmbeddingProgress) :
  generateFullEmbeddings env w = (Ok (Some pr), w') ->
  processed pr = successful pr + failed pr + skipped pr /\ processed pr = total pr.
Proof.
  intros H. exact (generateFullEmbeddings_counts env w (Some pr) w' H).
Qed.

(** ** Instances of the theorems on concrete inputs *)

Lemma C1_low_stock_never_added_witness :
  exists prod r w',
    products world_created !! "p1" = Some prod /\
    executeInventoryUpdate sample_env (mkUpdateInput "p1" 3 true) world_created = (r, w') /\
    exists res, r = Ok res /\
      (forall sc, statusChange res = Some sc ->
                  embeddingAction sc = removed \/ embeddingAction sc = none) /\
      (index w' = index world_created \/ exists k, index w' = delete k (index world_created)).
Proof.
  eexists. eexists. eexists.
  split; [vm_compute; reflexivity |]. split; [vm_compute; reflexivity |].
  eapply (C1_low_stock_never_added sample_env world_created _ "p1" true _ _);
    vm_compute; reflexivity.
Defined.

Lemma C3_updateInventory_sets_isActive_witness :
  exists p w',
    updateInventory sample_env "p1" 7 world_created = (Ok p, w') /\
    products w' !! "p1" = Some p /\ quantity p = 7 /\ isActive p = (7 >? 0).
Proof.
  eexists. eexists. split; [vm_compute; reflexivity |].
  apply (C3_updateInventory_sets_isActive sample_env world_created _ "p1" 7 _).
  vm_compute. reflexivity.
Defined.

Lemma C4_add_when_stored_inactive_witness :
  exists prod,
    products world_deactivated !! "p1" = Some prod /\
    match executeInventoryUpdate sample_env (mkUpdateInput "p1" 10 true) world_deactivated with
    | (r, w') =>
        r = Ok (mkUpdateResult true "p1" 0 10 (Some (mkStatusChange false true added)) None) /\
        index w' !! vector_id (with_inventory 10 (now sample_env) prod) = Some (mkEntry [1; 2; 3] None) /\
        exists p', products w' !! "p1" = Some p' /\ hasEmbedding p' = true /\
                   quantity p' = 10 /\ isActive p' = true
    end.
Proof.
  eexists. split; [vm_compute; reflexivity |].
  apply (C4_add_when_stored_inactive sample_env world_deactivated "p1" _ [1; 2; 3]);
    try (vm_compute; reflexivity).
  discriminate.
Defined.

Lemma C5_embedding_errors_swallowed_witness :
  exists prod,
    products world_deactivated !! "p1" = Some prod /\
    match executeInventoryUpdate ollama_down_env (mkUpdateInput "p1" 10 true) world_deactivated with
    | (r, w') =>
        (exists sc, r = Ok (mkUpdateResult true "p1" (quantity prod) 10 (Some sc) None)) /\
        exists p', products w' !! "p1" = Some p' /\ quantity p' = 10 /\ isActive p' = (10 >? 0)
    end.
Proof.
  eexists. split; [vm_compute; reflexivity |].
  apply (C5_embedding_errors_swallowed ollama_down_env world_deactivated "p1" 10 true _);
    vm_compute; reflexivity.
Defined.

Lemma C6_bulk_job_counters_witness :
  exists pr w',
    generateFullEmbeddings sample_env catalog_world = (Ok (Some pr), w') /\
    (total pr, processed pr, successful pr, failed pr, skipped pr) = (2, 2, 1, 0, 1) /\
    processed pr = successful pr + failed pr + skipped pr /\ processed pr = total pr.
Proof.
  eexists. eexists. split; [vm_compute; reflexivity |]. split; [vm_compute; reflexivity |].
  eapply (C6_bulk_job_counters sample_env catalog_world _ _).
  vm_compute. reflexivity.
Defined.

Lemma C10_createProduct_zero_quantity_active_witness :
  exists p w',
    createProduct sample_env "p1" headphones empty_world = (Ok p, w') /\
    products w' !! "p1" = Some p /\ quantity p = 0 /\ isActive p = true /\
    isActive p <> (quantity p >? 0).
Proof.
  eexists. eexists. split; [vm_compute; reflexivity |].
  apply (C10_createProduct_zero_quantity_active sample_env "p1" headphones empty_world _ _);
    vm_compute; reflexivity.
Defined.

(** * Further properties of the services *)

(** ** Query filters and the search helpers of PineconeService *)

Lemma matches_filter_In (md : option Metadata.t) (f : Filter) (k : string) (ops : list FOp) :
  matches_filter md f = true -> In (k, ops) f ->
  exists m v, md = Some m /\ md_field m k = Some v /\ forallb (op_holds v) ops = true.
Proof.
  unfold matches_filter. intros H Hin.
  apply forallb_forall with (x := (k, ops)) in H; [| exact Hin].
  destruct md as [m |]; [| discriminate].
  destruct (md_field m k) as [v |] eqn:Ev; [| discriminate].
  exists m, v. auto.
Qed.

Lemma matches_filter_incl (md : option Metadata.t) (f1 f2 : Filter) :
  (forall e, In e f2 -> In e f1) -> matches_filter md f1 = true -> matches_filter md f2 = true.
Proof.
  unfold matches_filter. intros Hincl H. apply forallb_forall. intros e He.
  exact (proj1 (forallb_forall _ f1) H e (Hincl e He)).
Qed.

Lemma nodup_fst_unique {A B} (l : list (A * B)) (k : A) (v1 v2 : B) :
  NoDup (map fst l) -> In (k, v1) l -> In (k, v2) l -> v1 = v2.
Proof.
  induction l as [| [k' v] l IH]; cbn [map fst]; [intros _ [] |].
  intros Hnd. apply NoDup_cons in Hnd. destruct Hnd as [Hnot Hnd].
  rewrite list_elem_of_In in Hnot. intros [H1 | H1] [H2 | H2].
  - injection H1 as -> ->. injection H2 as ->. reflexivity.
  - injection H1 as -> ->. exfalso. apply Hnot. apply in_map_iff. exists (k, v2). auto.
  - injection H2 as -> ->. exfalso. apply Hnot. apply in_map_iff. exists (k, v1). auto.
  - exact (IH Hnd H1 H2).
Qed.

(** An entry of the default filter whose key the caller does not name is kept. *)
Lemma spread_keeps_default (a b : Filter) (k : string) (v : list FOp) :
  In (k, v) a -> ~ In k (map fst b) -> In (k, v) (spread a b).
Proof.
  intros Ha Hb. unfold spread. apply in_or_app. left.
  apply in_map_iff. exists (k, v). split; [| exact Ha].
  destruct (list_find (fun kv => fst kv = k) b) as [[i [k' v']] |] eqn:E; [| reflexivity].
  apply list_find_Some in E. destruct E as [Hl [Hk _]]. cbn in Hk. subst k'.
  exfalso. apply Hb. apply in_map_iff. exists (k, v'). split; [reflexivity |].
  apply list_elem_of_In. eapply list_elem_of_lookup_2. exact Hl.
Qed.

(** An entry of the caller's filter is in the merged filter, when the caller
    names each key once. *)
Lemma spread_keeps_caller (a b : Filter) (k : string) (v : list FOp) :
  NoDup (map fst b) -> In (k, v) b -> In (k, v) (spread a b).
Proof.
  intros Hnd Hb. unfold spread. apply in_or_app.
  destruct (existsb (fun kv' => String.eqb (fst kv') k) a) eqn:Ex.
  - left. apply existsb_exists in Ex. destruct Ex as [[ka va] [Ha Hka]].
    cbn in Hka. apply String.eqb_eq in Hka. subst ka.
    apply in_map_iff. exists (k, va). split; [| exact Ha].
    destruct (list_find (fun kv => fst kv = k) b) as [[i [k' v']] |] eqn:E.
    + apply list_find_Some in E. destruct E as [Hl [Hk _]]. cbn in Hk. subst k'.
      f_equal. apply (nodup_fst_unique b k v' v Hnd); [| exact Hb].
      apply list_elem_of_In. eapply list_elem_of_lookup_2. exact Hl.
    + apply list_find_None in E. rewrite Forall_forall in E.
      exfalso. apply (E (k, v)); [apply list_elem_of_In, Hb | reflexivity].
  - right. apply filter_In. split; [exact Hb |]. cbn. rewrite Ex. reflexivity.
Qed.

Lemma searchProducts_scores (env : Env) (vec : list Z) (topK : Z) (minScore : Q) (filt : Filter)
  (w w' : World) (rs : list SearchResult) :
  searchProducts env vec topK minScore filt w = (Ok rs, w') ->
  forall r, In r rs -> (minScore <= sr_score r)%Q.
Proof.
  unfold searchProducts, bind.
  destruct (pinecone_query env vec topK (spread defaultFilter filt) w) as [[ms | m] w1] eqn:E;
    unfold ret; intros H; [| discriminate].
  injection H as <- <-. intros r Hr.
  apply in_map_iff in Hr. destruct Hr as [m [<- Hm]]. apply filter_In in Hm.
  cbn. apply Qle_bool_iff. exact (proj2 Hm).
Qed.

(** The facts about one result of a search helper: its metadata passes the
    default filter and [minScore] 0.7. *)
Lemma search_helper_result (env : Env) (vec : list Z) (topK : Z) (k : string) (ops : list FOp)
  (w w' : World) (rs : list SearchResult) (r : SearchResult) :
  k <> "isActive" -> k <> "quantity" ->
  searchProducts env vec topK (7 # 10) [(k, ops)] w = (Ok rs, w') -> In r rs ->
  exists m v, sr_metadata r = Some m /\ md_field m k = Some v /\ forallb (op_holds v) ops = true /\
    Metadata.isActive m = true /\ Metadata.quantity m > 0 /\ (7 # 10 <= sr_score r)%Q.
Proof.
  intros Hk1 Hk2 H Hr.
  pose proof (searchProducts_matches _ _ _ _ _ _ _ _ H r Hr) as Hm.
  pose proof (searchProducts_scores _ _ _ _ _ _ _ _ H r Hr) as Hs.
  assert (Hnot : forall k', k' = "isActive" \/ k' = "quantity" -> ~ In k' (map fst [(k, ops)])).
  { intros k' Hk' [Heq | []]. cbn in Heq. subst. tauto. }
  destruct (matches_filter_In _ _ "isActive" _ Hm
              (spread_keeps_default defaultFilter _ "isActive" [FEq (VBool true)]
                 (or_introl eq_refl) (Hnot _ (or_introl eq_refl))))
    as [m [va [Hmd [Hva Hopa]]]].
  destruct (matches_filter_In _ _ "quantity" _ Hm
              (spread_keeps_default defaultFilter _ "quantity" [FGt 0]
                 (or_intror (or_introl eq_refl)) (Hnot _ (or_intror eq_refl))))
    as [m' [vq [Hmd' [Hvq Hopq]]]].
  destruct (matches_filter_In _ _ k _ Hm
              (spread_keeps_caller defaultFilter [(k, ops)] k ops
                 ltac:(cbn; apply NoDup_singleton) (or_introl eq_refl)))
    as [m'' [v [Hmd'' [Hv Hop]]]].
  rewrite Hmd in Hmd', Hmd''. injection Hmd' as <-. injection Hmd'' as <-.
  cbn in Hva, Hvq. injection Hva as <-. injection Hvq as <-.
  cbn in Hopa, Hopq. rewrite andb_true_r in Hopa, Hopq.
  exists m, v. repeat split; auto.
  - destruct (Metadata.isActive m); [reflexivity | discriminate].
  - apply Z.gtb_lt in Hopq. lia.
Qed.

(** [searchByCategory]: every result carries metadata whose category is the
    one asked for, which is active and in stock, and its score is at least
    0.7. *)
Theorem searchByCategory_results (env : Env) (qe : list Z) (c : string) (topK : Z)
  (w w' : World) (rs : list SearchResult) :
  searchByCategory env qe c topK w = (Ok rs, w') ->
  forall r, In r rs -> exists m, sr_metadata r = Some m /\ Metadata.category m = c /\
    Metadata.isActive m = true /\ Metadata.quantity m > 0 /\ (7 # 10 <= sr_score r)%Q.
Proof.
  unfold searchByCategory. intros H r Hr.
  destruct (search_helper_result env qe topK "category" _ w w' rs r
              ltac:(discriminate) ltac:(discriminate) H Hr)
    as [m [v [Hmd [Hv [Hop [Ha [Hq Hs]]]]]]].
  cbn in Hv. injection Hv as <-. cbn in Hop. rewrite andb_true_r in Hop.
  apply String.eqb_eq in Hop. exists m. auto.
Qed.

(** [searchByBrand]: every result carries metadata whose brand is the one
    asked for, which is active and in stock, and its score is at least 0.7. *)
Theorem searchByBrand_results (env : Env) (qe : list Z) (b : string) (topK : Z)
  (w w' : World) (rs : list SearchResult) :
  searchByBrand env qe b topK w = (Ok rs, w') ->
  forall r, In r rs -> exists m, sr_metadata r = Some m /\ Metadata.brand m = b /\
    Metadata.isActive m = true /\ Metadata.quantity m > 0 /\ (7 # 10 <= sr_score r)%Q.
Proof.
  unfold searchByBrand. intros H r Hr.
  destruct (search_helper_result env qe topK "brand" _ w w' rs r
              ltac:(discriminate) ltac:(discriminate) H Hr)
    as [m [v [Hmd [Hv [Hop [Ha [Hq Hs]]]]]]].
  cbn in Hv. injection Hv as <-. cbn in Hop. rewrite andb_true_r in Hop.
  apply String.eqb_eq in Hop. exists m. auto.
Qed.

(** [searchByPriceRange]: every result carries metadata whose price lies in
    [[minPrice, maxPrice]], which is active and in stock, and its score is
    at least 0.7. *)
Theorem searchByPriceRange_results (env : Env) (qe : list Z) (mn mx : Z) (topK : Z)
  (w w' : World) (rs : list SearchResult) :
  searchByPriceRange env qe mn mx topK w = (Ok rs, w') ->
  forall r, In r rs -> exists m, sr_metadata r = Some m /\ mn <= Metadata.price m <= mx /\
    Metadata.isActive m = true /\ Metadata.quantity m > 0 /\ (7 # 10 <= sr_score r)%Q.
Proof.
  unfold searchByPriceRange. intros H r Hr.
  destruct (search_helper_result env qe topK "price" _ w w' rs r
              ltac:(discriminate) ltac:(discriminate) H Hr)
    as [m [v [Hmd [Hv [Hop [Ha [Hq Hs]]]]]]].
  cbn in Hv. injection Hv as <-. cbn in Hop. rewrite andb_true_r in Hop.
  apply andb_prop in Hop. destruct Hop as [H1 H2].
  apply Z.geb_le in H1. apply Z.leb_le in H2. exists m. repeat split; auto; lia.
Qed.

(** [searchProducts]: the caller's filter is applied as given (its entries
    override the defaults of the same key), and a default the caller does not
    override still applies. *)
Theorem searchProducts_caller_filter (env : Env) (vec : list Z) (topK : Z) (minScore : Q)
  (filt : Filter) (w w' : World) (rs : list SearchResult) :
  NoDup (map fst filt) ->
  searchProducts env vec topK minScore filt w = (Ok rs, w') ->
  forall r, In r rs ->
    matches_filter (sr_metadata r) filt = true /\
    (~ In "isActive" (map fst filt) ->
       exists m, sr_metadata r = Some m /\ Metadata.isActive m = true) /\
    (~ In "quantity" (map fst filt) ->
       exists m, sr_metadata r = Some m /\ Metadata.quantity m > 0).
Proof.
  intros Hnd H r Hr.
  pose proof (searchProducts_matches _ _ _ _ _ _ _ _ H r Hr) as Hm.
  split; [| split].
  - apply (matches_filter_incl _ _ _ (fun e He =>
             match e as e' return In e' filt -> In e' (spread defaultFilter filt) with
             | (k, v) => fun He' => spread_keeps_caller defaultFilter filt k v Hnd He'
             end He) Hm).
  - intros Hn.
    destruct (matches_filter_In _ _ "isActive" _ Hm
                (spread_keeps_default defaultFilter filt "isActive" [FEq (VBool true)]
                   (or_introl eq_refl) Hn)) as [m [v [Hmd [Hv Hop]]]].
    cbn in Hv. injection Hv as <-. cbn in Hop. exists m. split; [exact Hmd |].
    destruct (Metadata.isActive m); [reflexivity | discriminate].
  - intros Hn.
    destruct (matches_filter_In _ _ "quantity" _ Hm
                (spread_keeps_default defaultFilter filt "quantity" [FGt 0]
                   (or_intror (or_introl eq_refl)) Hn)) as [m [v [Hmd [Hv Hop]]]].
    cbn in Hv. injection Hv as <-. cbn in Hop. rewrite andb_true_r in Hop.
    apply Z.gtb_lt in Hop. exists m. split; [exact Hmd | lia].
Qed.

(** ** Ranking of the search results *)

Lemma StronglySorted_filter {A} (R : A -> A -> Prop) (f : A -> bool) (l : list A) :
  StronglySorted R l -> StronglySorted R (List.filter f l).
Proof.
  induction 1 as [| x l Hs IH Hf]; cbn; [constructor |].
  destruct (f x); [| exact IH].
  constructor; [exact IH |]. apply List.Forall_forall. intros y Hy.
  apply filter_In in Hy. exact (proj1 (List.Forall_forall _ _) Hf y (proj1 Hy)).
Qed.

Lemma StronglySorted_take {A} (R : A -> A -> Prop) (n : nat) (l : list A) :
  StronglySorted R l -> StronglySorted R (take n l).
Proof.
  revert l. induction n as [| n IH]; intros l Hs; [constructor |].
  destruct Hs as [| x l Hs Hf]; cbn; constructor; [apply IH, Hs |].
  apply List.Forall_forall. intros y Hy.
  exact (proj1 (List.Forall_forall _ _) Hf y (in_firstn_in _ _ _ Hy)).
Qed.

Lemma StronglySorted_map {A B} (R : A -> A -> Prop) (S : B -> B -> Prop) (g : A -> B) (l : list A) :
  (forall x y, R x y -> S (g x) (g y)) -> StronglySorted R l -> StronglySorted S (map g l).
Proof.
  intros HRS. induction 1 as [| x l Hs IH Hf]; cbn; constructor; [exact IH |].
  apply List.Forall_forall. intros y Hy. apply in_map_iff in Hy. destruct Hy as [z [<- Hz]].
  apply HRS. exact (proj1 (List.Forall_forall _ _) Hf z Hz).
Qed.

Lemma insert_by_score_sorted (x : Match) (l : list Match) :
  StronglySorted (fun a b => m_score b <= m_score a)%Q l ->
  StronglySorted (fun a b => m_score b <= m_score a)%Q (insert_by_score x l).
Proof.
  induction 1 as [| y l Hs IH Hf]; cbn; [repeat constructor |].
  destruct (Qle_bool (m_score y) (m_score x)) eqn:E.
  - apply Qle_bool_iff in E. constructor; [constructor; assumption |].
    constructor; [exact E |]. apply List.Forall_forall. intros z Hz.
    apply Qle_trans with (m_score y); [exact (proj1 (List.Forall_forall _ _) Hf z Hz) | exact E].
  - constructor; [exact IH |]. apply List.Forall_forall. intros z Hz.
    destruct (in_insert_by_score x z l Hz) as [-> | Hz'].
    + apply Qlt_le_weak, Qnot_le_lt. intros Hle. apply Qle_bool_iff in Hle. congruence.
    + exact (proj1 (List.Forall_forall _ _) Hf z Hz').
Qed.

Lemma fold_insert_by_score_sorted (l : list Match) :
  StronglySorted (fun a b => m_score b <= m_score a)%Q (fold_right insert_by_score [] l).
Proof.
  induction l as [| x l IH]; cbn; [constructor | apply insert_by_score_sorted, IH].
Qed.

(** [searchProducts] leaves the state unchanged and returns at most [topK]
    results, each with a score of at least [minScore], by decreasing score. *)
Theorem searchProducts_ranked (env : Env) (vec : list Z) (topK : Z) (minScore : Q) (filt : Filter)
  (w w' : World) (rs : list SearchResult) :
  searchProducts env vec topK minScore filt w = (Ok rs, w') ->
  w' = w /\ (length rs <= Z.to_nat topK)%nat /\
  (forall r, In r rs -> (minScore <= sr_score r)%Q) /\
  StronglySorted (fun r1 r2 => sr_score r2 <= sr_score r1)%Q rs.
Proof.
  intros H. pose proof (searchProducts_scores _ _ _ _ _ _ _ _ H) as Hs.
  unfold searchProducts, bind in H.
  destruct (pinecone_query env vec topK (spread defaultFilter filt) w) as [[ms | m] w1] eqn:E;
    unfold ret in H; [| discriminate].
  injection H as <- <-.
  destruct (pinecone_query_from_index _ _ _ _ _ _ _ E) as [-> _].
  unfold pinecone_query, bind in E. unfold guard_pc, ret, throw, get in E.
  destruct (pinecone_ok env OpQuery); [| discriminate].
  injection E as <-.
  split; [reflexivity |]. split; [| split; [exact Hs |]].
  - rewrite length_map. etransitivity; [apply filter_length_le |].
    rewrite length_take. lia.
  - apply (StronglySorted_map (fun a b => m_score b <= m_score a)%Q); [intros ? ? Hab; exact Hab |].
    apply StronglySorted_filter, StronglySorted_take, fold_insert_by_score_sorted.
Qed.

(** ** Writes to the vector index *)

(** [deleteProduct(vector id)] after [upsertProduct(p, v)] leaves the index
    without an entry for that id (an older vector stored under the id is lost
    too), everything else as before; from an index without that id it is the
    state before the upsert. *)
Theorem upsert_then_delete (env : Env) (p : Product) (v : list Z) (w w1 w2 : World) (u b : bool) :
  upsertProduct env p v w = (Ok u, w1) ->
  deleteProduct env (vector_id p) w1 = (Ok b, w2) ->
  w2 = set_index w (delete (vector_id p) (index w)) /\
  (index w !! vector_id p = None -> w2 = w).
Proof.
  unfold upsertProduct, deleteProduct. unfold_run.
  destruct (pinecone_ok env OpUpsert); unfold_run; [| discriminate].
  intros H1. injection H1 as _ <-.
  destruct (pinecone_ok env OpDelete); unfold_run; [| discriminate].
  intros H2. injection H2 as _ <-. cbn [products index jobs next_job].
  rewrite delete_insert_eq. split; [reflexivity |].
  intros Hn. rewrite delete_id by exact Hn. destruct w; reflexivity.
Qed.

Lemma lookup_delete_all (ix : gmap string IndexEntry) (ids : list string) (k : string) :
  fold_right delete ix ids !! k = if in_dec string_dec k ids then None else ix !! k.
Proof.
  induction ids as [| i ids IH]; cbn [fold_right]; [reflexivity |].
  destruct (in_dec string_dec k (i :: ids)) as [Hin | Hnin].
  - destruct (string_dec i k) as [-> | Hne]; [apply lookup_delete_eq |].
    rewrite lookup_delete_ne by exact Hne. rewrite IH.
    destruct (in_dec string_dec k ids) as [_ | Hn]; [reflexivity |].
    destruct Hin as [-> | Hin]; [congruence | contradiction].
  - rewrite lookup_delete_ne by (intros ->; apply Hnin; left; reflexivity).
    rewrite IH. destruct (in_dec string_dec k ids) as [Hin | _]; [| reflexivity].
    exfalso. apply Hnin. right. exact Hin.
Qed.

(** [deleteProducts(ids)] removes the entry of every listed id, keeps every
    other entry, and changes nothing but the index. *)
Theorem deleteProducts_effect (env : Env) (ids : list string) (w w' : World) (b : bool) :
  deleteProducts env ids w = (Ok b, w') ->
  products w' = products w /\ jobs w' = jobs w /\
  (forall k, In k ids -> index w' !! k = None) /\
  (forall k, ~ In k ids -> index w' !! k = index w !! k).
Proof.
  unfold deleteProducts. unfold_run.
  destruct (pinecone_ok env OpDelete); unfold_run; [| discriminate].
  intros H. injection H as _ <-. cbn [products index jobs].
  split; [reflexivity |]. split; [reflexivity |]. split.
  - intros k Hk. rewrite lookup_delete_all. destruct (in_dec string_dec k ids); [reflexivity | contradiction].
  - intros k Hk. rewrite lookup_delete_all. destruct (in_dec string_dec k ids); [contradiction | reflexivity].
Qed.

(** ** OllamaService helpers *)

Lemma slices_concat {A} (fuel n : nat) (l : list A) :
  (0 < n)%nat -> (length l <= fuel)%nat -> concat (slices fuel n l) = l.
Proof.
  revert l. induction fuel as [| f IH]; intros l Hn Hl.
  - destruct l; cbn in *; [reflexivity | lia].
  - destruct l as [| x l']; [reflexivity |].
    change (concat (slices (S f) n (x :: l')))
      with (take n (x :: l') ++ concat (slices f n (drop n (x :: l')))).
    rewrite IH; [apply firstn_skipn | exact Hn |].
    rewrite length_drop. cbn [length] in *. lia.
Qed.

Lemma mapM_generateEmbedding (env : Env) (l : list string) (w : World) :
  match mapM (generateEmbedding env) l w with
  | (Ok es, w') => w' = w /\ Forall2 (fun t e => ollama_embed env t = Some e /\ e <> []) l es
  | (Throw _, w') =>
      w' = w /\ Exists (fun t => match ollama_embed env t with Some (_ :: _) => False | _ => True end) l
  end.
Proof.
  induction l as [| t l IH]; cbn [mapM]; unfold bind, ret.
  - split; [reflexivity | constructor].
  - assert (Hg : generateEmbedding env t w
                 = (match ollama_embed env t with
                    | Some (x :: xs) => Ok (x :: xs)
                    | _ => Throw "No embedding returned from Ollama"
                    end, w)).
    { unfold generateEmbedding. destruct (ollama_embed env t) as [[| ? ?] |]; reflexivity. }
    rewrite Hg.
    destruct (ollama_embed env t) as [[| a b] |] eqn:E; cbv beta iota;
      try (split; [reflexivity | constructor; rewrite E; exact I]).
    destruct (mapM (generateEmbedding env) l w) as [[es | m] w'];
      destruct IH as [-> IH].
    + split; [reflexivity |]. constructor; [| exact IH]. split; [exact E | discriminate].
    + split; [reflexivity |]. apply Exists_cons_tl. exact IH.
Qed.

Lemma embed_batches_spec (env : Env) (batches : list (list string)) (acc : list (list Z)) (w : World) :
  match embed_batches env batches acc w with
  | (Ok es, w') =>
      w' = w /\ exists es', es = acc ++ es' /\
        Forall2 (fun t e => ollama_embed env t = Some e /\ e <> []) (concat batches) es'
  | (Throw _, w') =>
      w' = w /\ Exists (fun t => match ollama_embed env t with Some (_ :: _) => False | _ => True end)
                       (concat batches)
  end.
Proof.
  revert acc. induction batches as [| b bs IH]; intros acc; cbn [embed_batches concat].
  - unfold ret. split; [reflexivity |]. exists []. rewrite app_nil_r. split; [reflexivity | constructor].
  - unfold bind. pose proof (mapM_generateEmbedding env b w) as Hb.
    destruct (mapM (generateEmbedding env) b w) as [[es1 | m] w1].
    + destruct Hb as [-> Hb]. specialize (IH (acc ++ es1)).
      destruct (embed_batches env bs (acc ++ es1) w) as [[es | m] w2].
      * destruct IH as [-> [es' [-> Hes]]]. split; [reflexivity |].
        exists (es1 ++ es'). split; [rewrite app_assoc; reflexivity |].
        apply Forall2_app; assumption.
      * destruct IH as [-> IH]. split; [reflexivity |]. apply Exists_app. right. exact IH.
    + destruct Hb as [-> Hb]. split; [reflexivity |]. apply Exists_app. left. exact Hb.
Qed.

(** [generateBatchEmbeddings(texts)] reads and writes no state; it returns one
    non-empty embedding per text, in the order of the texts, or rejects, and
    it rejects only when the embedding of some text fails or is empty. *)
Theorem generateBatchEmbeddings_spec (env : Env) (texts : list string) (w w' : World)
  (r : Result (list (list Z))) :
  generateBatchEmbeddings env texts w = (r, w') ->
  w' = w /\
  match r with
  | Ok es => Forall2 (fun t e => ollama_embed env t = Some e /\ e <> []) texts es
  | Throw _ => Exists (fun t => match ollama_embed env t with Some (_ :: _) => False | _ => True end) texts
  end.
Proof.
  unfold generateBatchEmbeddings. intros H.
  pose proof (embed_batches_spec env (slices (length texts) 5 texts) [] w) as Hs.
  rewrite H in Hs. rewrite (slices_concat (length texts) 5 texts ltac:(lia) (le_n _)) in Hs.
  destruct r as [es | m].
  - destruct Hs as [-> [es' [-> Hes]]]. split; [reflexivity | exact Hes].
  - exact Hs.
Qed.

Lemma collapse_spaces_elems (b : bool) (l : list ascii) (d : ascii) :
  In d (collapse_spaces b l) -> d = " "%char \/ is_space d = false.
Proof.
  revert b. induction l as [| c l IH]; intros b; cbn; [tauto |].
  destruct (is_space c) eqn:E; [destruct b |]; cbn.
  - apply IH.
  - intros [<- | H]; [left; reflexivity | exact (IH true H)].
  - intros [<- | H]; [right; exact E | exact (IH false H)].
Qed.

Lemma lower_kept_char (d : ascii) :
  kept_char d = true -> d = " "%char \/ is_space d = false ->
  (97 <= nat_of_ascii (lower_ascii d) <= 122)%nat \/ (48 <= nat_of_ascii (lower_ascii d) <= 57)%nat \/
  In (nat_of_ascii (lower_ascii d)) [95; 32; 45; 46; 44; 33; 63]%nat.
Proof.
  destruct d as [[] [] [] [] [] [] [] []]; vm_compute; intros Hk Hs;
    first [ discriminate Hk | destruct Hs as [Hs | Hs]; discriminate Hs | lia ].
Qed.

(** [prepareTextForEmbedding(text)] yields only lowercase letters, digits,
    [_], the space and [- . , ! ?]: no capital letter and no white space other
    than the plain space. *)
Theorem prepareTextForEmbedding_charset (text : string) (c : ascii) :
  In c (list_ascii_of_string (prepareTextForEmbedding text)) ->
  (97 <= nat_of_ascii c <= 122)%nat \/ (48 <= nat_of_ascii c <= 57)%nat \/
  In (nat_of_ascii c) [95; 32; 45; 46; 44; 33; 63]%nat.
Proof.
  unfold prepareTextForEmbedding. rewrite list_ascii_of_string_of_list_ascii.
  intros H. apply in_map_iff in H. destruct H as [d [<- Hd]].
  apply filter_In in Hd. destruct Hd as [Hd Hk].
  exact (lower_kept_char d Hk (collapse_spaces_elems _ _ _ Hd)).
Qed.

(** ** Reads of DatabaseService *)

Lemma length_filter_true {A} (l : list A) : length (List.filter (fun _ => true) l) = length l.
Proof. induction l as [| x l IH]; cbn; [reflexivity | rewrite IH; reflexivity]. Qed.

Lemma length_filter_disjoint {A} (f g : A -> bool) (l : list A) :
  (forall x, f x && g x = false) ->
  (length (List.filter f l) + length (List.filter g l) <= length l)%nat.
Proof.
  intros Hd. induction l as [| x l IH]; cbn; [lia |].
  specialize (Hd x). destruct (f x), (g x); cbn in *; try discriminate; lia.
Qed.

Lemma count_rows_le_total (f : Product -> bool) (w : World) :
  0 <= count_rows f w <= count_rows (fun _ => true) w.
Proof.
  unfold count_rows. rewrite length_filter_true. split; [lia |].
  apply Nat2Z.inj_le, filter_length_le.
Qed.

(** [getProductStats()] reads the catalog only; its counts are bounded by the
    number of products, a product is never counted both low in stock and out
    of stock, and the embedding coverage is a percentage between 0 and 100. *)
Theorem getProductStats_bounds (env : Env) (w w' : World) (s : ProductStats) :
  getProductStats env w = (Ok s, w') ->
  w' = w /\
  0 <= activeProducts s <= totalProducts s /\
  0 <= productsWithEmbeddings s <= totalProducts s /\
  0 <= lowStockProducts_ s /\ 0 <= outOfStockProducts_ s /\
  lowStockProducts_ s + outOfStockProducts_ s <= totalProducts s /\
  (0 <= embeddingCoverage s <= 100)%Q.
Proof.
  unfold getProductStats, guard_db, bind, get, ret, throw.
  destruct (db_ok env OpStats); [| discriminate]. cbv zeta.
  intros H. injection H as <- <-. cbn [activeProducts totalProducts productsWithEmbeddings
                                       lowStockProducts_ outOfStockProducts_ embeddingCoverage].
  pose proof (count_rows_le_total isActive w) as Ha.
  pose proof (count_rows_le_total hasEmbedding w) as He.
  pose proof (count_rows_le_total
                (fun p => (quantity p <? LOW_STOCK_THRESHOLD env) && (quantity p >? 0)) w) as Hl.
  pose proof (count_rows_le_total (fun p => quantity p <=? 0) w) as Ho.
  assert (Hlo : count_rows (fun p => (quantity p <? LOW_STOCK_THRESHOLD env) && (quantity p >? 0)) w
                + count_rows (fun p => quantity p <=? 0) w <= count_rows (fun _ => true) w).
  { unfold count_rows. rewrite length_filter_true, <- Nat2Z.inj_add. apply Nat2Z.inj_le.
    apply length_filter_disjoint. intros p.
    destruct (quantity p <? LOW_STOCK_THRESHOLD env), (quantity p >? 0) eqn:E1,
             (quantity p <=? 0) eqn:E2; try reflexivity.
    apply Z.gtb_lt in E1. apply Z.leb_le in E2. lia. }
  split; [reflexivity |]. do 5 (split; [lia |]).
  set (e := count_rows hasEmbedding w) in *. set (t := count_rows (fun _ => true) w) in *.
  destruct (t >? 0) eqn:Et; [| split; unfold Qle; simpl; lia].
  apply Z.gtb_lt in Et.
  assert (Ht : (0 < inject_Z t)%Q) by (change 0%Q with (inject_Z 0); rewrite <- Zlt_Qlt; exact Et).
  split.
  - apply Qmult_le_0_compat; [| unfold Qle; simpl; lia].
    apply Qle_shift_div_l; [exact Ht |]. rewrite Qmult_0_l.
    change 0%Q with (inject_Z 0). rewrite <- Zle_Qle. lia.
  - apply Qle_trans with (1 * inject_Z 100)%Q; [| unfold Qle; simpl; lia].
    apply Qmult_le_compat_r; [| unfold Qle; simpl; lia].
    apply Qle_shift_div_r; [exact Ht |]. rewrite Qmult_1_l. rewrite <- Zle_Qle. lia.
Qed.

Lemma in_insert_sorted (s x : string) (l : list string) :
  In x (insert_sorted s l) <-> x = s \/ In x l.
Proof.
  induction l as [| t l IH]; cbn; [intuition congruence |].
  destruct (String.leb s t); cbn; [intuition congruence |]. rewrite IH. intuition congruence.
Qed.

Lemma in_sort_strings (x : string) (l : list string) : In x (sort_strings l) <-> In x l.
Proof.
  unfold sort_strings. induction l as [| s l IH]; cbn; [tauto |].
  rewrite in_insert_sorted, IH. split; intros [-> | H]; auto.
Qed.

Lemma insert_sorted_sorted (s : string) (l : list string) :
  Sorted (fun a b => String.leb a b = true) l ->
  Sorted (fun a b => String.leb a b = true) (insert_sorted s l).
Proof.
  induction l as [| t l IH]; intros Hs; cbn; [repeat constructor |].
  destruct (String.leb s t) eqn:E; [constructor; [exact Hs | constructor; exact E] |].
  apply Sorted_inv in Hs. destruct Hs as [Hs Hhd].
  assert (Hts : String.leb t s = true)
    by (destruct (String.leb_total s t) as [H | H]; [congruence | exact H]).
  constructor; [apply IH, Hs |].
  destruct l as [| u l']; cbn; [constructor; exact Hts |].
  destruct (String.leb s u); constructor; [exact Hts |]. apply HdRel_inv in Hhd. exact Hhd.
Qed.

Lemma sort_strings_sorted (l : list string) :
  Sorted (fun a b => String.leb a b = true) (sort_strings l).
Proof.
  unfold sort_strings. induction l as [| s l IH]; cbn; [constructor | apply insert_sorted_sorted, IH].
Qed.

Lemma sort_strings_NoDup (l : list string) : NoDup l -> NoDup (sort_strings l).
Proof.
  unfold sort_strings. induction l as [| s l IH]; cbn; [intros _; constructor |].
  intros Hnd. apply NoDup_cons in Hnd. destruct Hnd as [Hs Hnd].
  specialize (IH Hnd). fold (sort_strings l) in *.
  rewrite list_elem_of_In in Hs.
  clear Hnd. revert IH. assert (Hs' : ~ In s (sort_strings l)) by (rewrite in_sort_strings; exact Hs).
  clear Hs. induction (sort_strings l) as [| t l' IH']; cbn; intros Hl; [apply NoDup_singleton |].
  apply NoDup_cons in Hl. destruct Hl as [Ht Hl]. rewrite list_elem_of_In in Ht.
  destruct (String.leb s t).
  - apply NoDup_cons. split; [rewrite list_elem_of_In; exact Hs' | apply NoDup_cons; split; [| exact Hl]].
    rewrite list_elem_of_In. exact Ht.
  - apply NoDup_cons. split.
    + rewrite list_elem_of_In, in_insert_sorted. intros [-> | H]; [apply Hs'; left; reflexivity | tauto].
    + apply IH'; [intros H; apply Hs'; right; exact H | exact Hl].
Qed.

Lemma NoDup_omap_inj {A B} (g : A -> option B) (l : list A) :
  (forall x y z, g x = Some z -> g y = Some z -> x = y) -> NoDup l -> NoDup (omap g l).
Proof.
  intros Hinj. induction 1 as [| x l Hx Hnd IH]; cbn; [constructor |].
  destruct (g x) as [z |] eqn:E; [| exact IH].
  apply NoDup_cons. split; [| exact IH].
  intros Hz. apply list_elem_of_omap in Hz. destruct Hz as [y [Hy Hgy]].
  apply Hx. rewrite (Hinj x y z E Hgy). exact Hy.
Qed.

(** What [getCategories] and [getBrands] compute from the rows. *)
Lemma distinct_sorted_spec (field : Product -> option string) (w : World) :
  NoDup (distinct_sorted field w) /\
  Sorted (fun a b => String.leb a b = true) (distinct_sorted field w) /\
  (forall c, In c (distinct_sorted field w) <->
             c <> "" /\ exists p, In p (rows w) /\ isActive p = true /\ field p = Some c).
Proof.
  unfold distinct_sorted. split; [| split; [apply sort_strings_sorted |]].
  - apply sort_strings_NoDup, NoDup_omap_inj; [| apply NoDup_remove_dups].
    intros [x |] [y |] z; cbn; try discriminate.
    destruct (String.eqb x ""), (String.eqb y ""); cbn; congruence.
  - intros c. rewrite in_sort_strings, <- list_elem_of_In, list_elem_of_omap. split.
    + intros [o [Ho Hg]]. apply elem_of_remove_dups, list_elem_of_In, in_map_iff in Ho.
      destruct Ho as [p [<- Hp]]. apply filter_In in Hp. destruct Hp as [Hp Hap].
      destruct (field p) as [x |] eqn:Ef; [| discriminate].
      cbn in Hg. destruct (String.eqb x "") eqn:Ex; cbn in Hg; [discriminate |].
      injection Hg as ->. split; [intros ->; discriminate |].
      exists p. apply andb_prop in Hap. tauto.
    + intros [Hc [p [Hp [Ha Hf]]]]. exists (Some c). split.
      * apply elem_of_remove_dups, list_elem_of_In, in_map_iff. exists p. split; [exact Hf |].
        apply filter_In. split; [exact Hp |]. rewrite Ha, Hf. reflexivity.
      * cbn. destruct (String.eqb c "") eqn:Ec; [apply String.eqb_eq in Ec; contradiction | reflexivity].
Qed.

(** [getCategories()] reads the catalog only and returns the categories of
    the active products, each once, without the empty string, in ascending
    order. *)
Theorem getCategories_spec (env : Env) (w w' : World) (cs : list string) :
  getCategories env w = (Ok cs, w') ->
  w' = w /\ NoDup cs /\ Sorted (fun a b => String.leb a b = true) cs /\
  (forall c, In c cs <-> c <> "" /\ exists p, In p (rows w) /\ isActive p = true /\ category p = Some c).
Proof.
  unfold getCategories, guard_db, bind, get, ret, throw.
  destruct (db_ok env OpGetAllProducts); [| discriminate].
  intros H. injection H as <- <-. split; [reflexivity | apply distinct_sorted_spec].
Qed.

(** [getBrands()] reads the catalog only and returns the brands of the active
    products, each once, without the empty string, in ascending order. *)
Theorem getBrands_spec (env : Env) (w w' : World) (bs : list string) :
  getBrands env w = (Ok bs, w') ->
  w' = w /\ NoDup bs /\ Sorted (fun a b => String.leb a b = true) bs /\
  (forall b, In b bs <-> b <> "" /\ exists p, In p (rows w) /\ isActive p = true /\ brand p = Some b).
Proof.
  unfold getBrands, guard_db, bind, get, ret, throw.
  destruct (db_ok env OpGetAllProducts); [| discriminate].
  intros H. injection H as <- <-. split; [reflexivity | apply distinct_sorted_spec].
Qed.



Lemma length_sorted_products (l : list Product) :
  length (fold_right insert_by_updatedAt [] l) = length l.
Proof.
  assert (Hins : forall p l', length (insert_by_updatedAt p l') = S (length l')).
  { intros p l'. induction l' as [| r l' IH]; cbn; [reflexivity |].
    destruct (updatedAt r <? updatedAt p); cbn; [reflexivity | rewrite IH; reflexivity]. }
  induction l as [| p l IH]; cbn; [reflexivity | rewrite Hins, IH; reflexivity].
Qed.





(** [getProductBySku(sku)] reads the catalog only; it returns a row with that
    SKU, or [null] only when no row has it. *)
Theorem getProductBySku_spec (env : Env) (s : string) (w w' : World) (o : option Product) :
  getProductBySku env s w = (Ok o, w') ->
  w' = w /\
  match o with
  | Some p => In p (rows w) /\ sku p = s
  | None => forall p, In p (rows w) -> sku p <> s
  end.
Proof.
  unfold getProductBySku, guard_db, bind, get, ret, throw.
  destruct (db_ok env OpGetProduct); [| discriminate].
  intros H. injection H as <- <-. split; [reflexivity |].
  destruct (List.find _ (rows w)) as [p |] eqn:E.
  - apply find_some in E. destruct E as [Hp Hs]. apply String.eqb_eq in Hs. auto.
  - intros p Hp Hs. pose proof (find_none _ _ E p Hp) as Hf. cbv beta in Hf.
    rewrite Hs, String.eqb_refl in Hf. discriminate.
Qed.

(** ** The inventory tools *)

Lemma catch_ret_not_throw {A} (c : M A) (h : string -> A) (w : World) (m : string) (w' : World) :
  catch_ c (fun x => ret (h x)) w <> (Throw m, w').
Proof. unfold catch_, ret. destruct (c w) as [[a | m0] w1]; discriminate. Qed.

(** [returns_walk], also splitting on the [match]es of the program. *)
Ltac returns_walk_m :=
  repeat (returns_walk;
          try match goal with
              | |- returns_in _ (match ?x with _ => _ end) => destruct x
              end).

Lemma executeInventoryUpdate_returns (env : Env) (input : InventoryUpdateInput) :
  returns_in (fun r => productId r = in_productId input /\ newQuantity r = in_quantity input /\
                       (success r = false <-> statusChange r = None) /\
                       (success r = true <-> error r = None))
             (executeInventoryUpdate env input).
Proof.
  unfold executeInventoryUpdate. returns_walk_m; cbn; intuition congruence.
Qed.

(** [executeInventoryUpdate(input)] always resolves: every error is turned
    into a result.  The result echoes the product id and the requested
    quantity; it is a success exactly when it carries a [statusChange], and
    exactly when it carries no [error]. *)
Theorem executeInventoryUpdate_result (env : Env) (input : InventoryUpdateInput) (w : World) :
  exists r w', executeInventoryUpdate env input w = (Ok r, w') /\
    productId r = in_productId input /\ newQuantity r = in_quantity input /\
    (success r = false <-> statusChange r = None) /\ (success r = true <-> error r = None).
Proof.
  destruct (executeInventoryUpdate env input w) as [[r | m] w'] eqn:E.
  - exists r, w'. split; [reflexivity |]. exact (executeInventoryUpdate_returns env input w r w' E).
  - exfalso. exact (catch_ret_not_throw _ _ _ _ _ E).
Qed.

(** [executeInventoryUpdate] on an id with no catalog row reports "Product not
    found" with [previousQuantity = 0] and changes nothing. *)
Theorem executeInventoryUpdate_missing (env : Env) (input : InventoryUpdateInput) (w : World) :
  db_ok env OpGetProduct = true -> products w !! in_productId input = None ->
  executeInventoryUpdate env input w
    = (Ok (mkUpdateResult false (in_productId input) 0 (in_quantity input) None
             (Some "Product not found")), w).
Proof.
  intros Hdb Hp. unfold executeInventoryUpdate, getProduct, guard_db, catch_, bind, get, ret.
  rewrite Hdb, Hp. reflexivity.
Qed.

(** [executeInventoryCheck] reads the catalog only.  For a single product,
    [isOutOfStock] holds exactly when the quantity is at most 0 and
    [isLowStock] exactly when it is positive and below the threshold, so the
    two flags never hold together. *)
Theorem executeInventoryCheck_flags (env : Env) (input : InventoryCheckInput) (w w' : World)
  (r : InventoryCheckResult) (cp : CheckedProduct) :
  executeInventoryCheck env input w = (Ok r, w') -> ck_product r = Some cp ->
  w' = w /\ (isOutOfStock cp = true <-> cp_quantity cp <= 0) /\
  (isLowStock cp = true <-> 0 < cp_quantity cp < ck_threshold input) /\
  ~ (isLowStock cp = true /\ isOutOfStock cp = true).
Proof.
  unfold executeInventoryCheck, getProduct, getProductBySku, getLowStockProducts,
    guard_db, catch_, bind, get, ret, throw.
  intros H Hc. split_run; pairs; cbn in Hc; try discriminate.
  all: injection Hc as <-; cbn [isOutOfStock isLowStock cp_quantity].
  all: split; [reflexivity |].
  all: rewrite Z.leb_le, andb_true_iff, Z.ltb_lt, Z.gtb_lt.
  all: split; [tauto |]; split; [split; intros; lia | lia].
Qed.

(** [executeInventoryCheck] without a (non-empty) product id or SKU lists
    exactly the active rows whose quantity is below the threshold, rows at
    quantity 0 or below included. *)
Theorem executeInventoryCheck_low_stock_list (env : Env) (input : InventoryCheckInput) (w : World) :
  truthy (ck_productId input) = false -> truthy (ck_sku input) = false ->
  db_ok env OpGetAllProducts = true ->
  exists l, executeInventoryCheck env input w = (Ok (mkCheckResult true None (Some l) None), w) /\
    forall e, In e l <-> exists p, In p (rows w) /\ isActive p = true /\
                                   quantity p < ck_threshold input /\
                                   e = mkLowStockEntry (id p) (name p) (sku p) (quantity p).
Proof.
  intros Hid Hsku Hdb.
  unfold executeInventoryCheck, getLowStockProducts, guard_db, catch_, bind, get, ret.
  rewrite Hid, Hsku, Hdb. cbn [orb].
  eexists. split; [reflexivity |]. intros e. rewrite in_map_iff. split.
  - intros [p [<- Hp]]. apply filter_In in Hp. destruct Hp as [Hp Hq].
    apply andb_prop in Hq. destruct Hq as [Hq Ha]. apply Z.ltb_lt in Hq. exists p. auto.
  - intros [p [Hp [Ha [Hq ->]]]]. exists p. split; [reflexivity |].
    apply filter_In. split; [exact Hp |]. rewrite Ha, andb_true_r. apply Z.ltb_lt, Hq.
Qed.

(** [executeInventoryCheck] with a non-empty product id looks the product up
    by id only: the SKU given with it is never consulted, and an unknown id
    gives "Product not found" without changing anything. *)
Theorem executeInventoryCheck_by_id (env : Env) (pid : string) (s1 s2 : option string) (t : Z)
  (w : World) :
  pid <> "" ->
  executeInventoryCheck env (mkCheckInput (Some pid) s1 t) w
    = executeInventoryCheck env (mkCheckInput (Some pid) s2 t) w /\
  (db_ok env OpGetProduct = true -> products w !! pid = None ->
   executeInventoryCheck env (mkCheckInput (Some pid) s1 t) w
     = (Ok (mkCheckResult false None None (Some "Product not found")), w)).
Proof.
  intros Hpid. assert (Ht : truthy (Some pid) = true).
  { cbn. destruct (String.eqb pid "") eqn:E; [apply String.eqb_eq in E; contradiction | reflexivity]. }
  unfold executeInventoryCheck. cbn [ck_productId ck_sku ck_threshold]. rewrite Ht. cbn [orb].
  split; [reflexivity |]. intros Hdb Hp.
  unfold getProduct, guard_db, catch_, bind, get, ret. rewrite Hdb. simpl. rewrite Hp.
  reflexivity.
Qed.

Lemma mapM_update_results (env : Env) (flag : bool) (batch : list BulkUpdateItem) (w : World) :
  exists rs w',
    mapM (fun u => executeInventoryUpdate env (mkUpdateInput (bu_productId u) (bu_quantity u) flag))
         batch w = (Ok rs, w') /\
    map productId rs = map bu_productId batch /\
    Forall (fun x => success x = false <-> statusChange x = None) rs.
Proof.
  revert w. induction batch as [| u batch IH]; intros w; cbn [mapM]; unfold bind, ret.
  - exists [], w. split; [reflexivity |]. split; constructor.
  - destruct (executeInventoryUpdate_result env (mkUpdateInput (bu_productId u) (bu_quantity u) flag) w)
      as [r [w1 [E [Hid [_ [Hs _]]]]]].
    rewrite E. destruct (IH w1) as [rs [w2 [E' [Hids Hall]]]]. rewrite E'.
    exists (r :: rs), w2. split; [reflexivity |]. cbn [map]. split.
    + rewrite Hid, Hids. reflexivity.
    + constructor; assumption.
Qed.

Lemma bulk_batches_results (env : Env) (flag : bool) (batches : list (list BulkUpdateItem))
  (acc : list InventoryUpdateResult) (eu : Z) (w : World) :
  exists res w', bulk_batches env flag batches acc eu w = (Ok res, w') /\
    exists rs, fst res = acc ++ rs /\ map productId rs = map bu_productId (concat batches) /\
      Forall (fun x => success x = false <-> statusChange x = None) rs /\
      snd res = eu + Z.of_nat (length (List.filter counts_as_embedding_update rs)).
Proof.
  revert acc eu w. induction batches as [| b bs IH]; intros acc eu w; cbn [bulk_batches concat].
  - exists (acc, eu), w. split; [reflexivity |]. exists [].
    rewrite app_nil_r. cbn. repeat split; [constructor | lia].
  - unfold bind. destruct (mapM_update_results env flag b w) as [rs1 [w1 [E [Hids1 Hall1]]]].
    rewrite E.
    destruct (IH (acc ++ rs1)
                 (eu + Z.of_nat (length (List.filter counts_as_embedding_update rs1))) w1)
      as [res [w2 [E' [rs [Hfst [Hids [Hall Hsnd]]]]]]].
    exists res, w2. split; [exact E' |]. exists (rs1 ++ rs). split; [rewrite Hfst, app_assoc; reflexivity |].
    split; [rewrite !map_app, Hids1, Hids; reflexivity |].
    split; [apply Forall_app; split; assumption |].
    rewrite Hsnd, List.filter_app, length_app. lia.
Qed.

Lemma length_filter_success (l : list InventoryUpdateResult) :
  (length (List.filter success l) + length (List.filter (fun x => negb (success x)) l) = length l)%nat.
Proof. induction l as [| x l IH]; cbn; [reflexivity |]. destruct (success x); cbn; lia. Qed.

Lemma length_filter_counted (l : list InventoryUpdateResult) :
  Forall (fun x => success x = false <-> statusChange x = None) l ->
  length (List.filter counts_as_embedding_update l)
  = (length (List.filter (fun x => negb (success x)) l)
     + length (List.filter (fun x => success x && counts_as_embedding_update x) l))%nat.
Proof.
  induction 1 as [| x l Hx Hl IH]; cbn; [reflexivity |].
  destruct (success x) eqn:Es; cbn.
  - destruct (counts_as_embedding_update x); cbn; lia.
  - unfold counts_as_embedding_update at 1. rewrite (proj1 Hx eq_refl). cbn. lia.
Qed.

(** [executeBulkInventoryUpdate(input)] always succeeds as a whole: its
    catch-all branch is never reached, since every single update resolves.
    It returns one result per requested update, in order, and [successful +
    failed = total = updates.length].  [embeddingsUpdated] counts every failed
    update (a failed result has no [statusChange], and [undefined !== 'none'])
    plus the successful updates whose embedding action is not [none]. *)
Theorem executeBulkInventoryUpdate_summary (env : Env) (updates : list BulkUpdateItem)
  (updateEmbeddings : bool) (w : World) :
  exists r w', executeBulkInventoryUpdate env updates updateEmbeddings w = (Ok r, w') /\
    bulk_success r = true /\
    map productId (bulk_results r) = map bu_productId updates /\
    bs_total (summary r) = Z.of_nat (length updates) /\
    bs_successful (summary r) + bs_failed (summary r) = bs_total (summary r) /\
    embeddingsUpdated (summary r)
      = bs_failed (summary r)
        + Z.of_nat (length (List.filter (fun x => success x && counts_as_embedding_update x)
                                        (bulk_results r))).
Proof.
  unfold executeBulkInventoryUpdate, catch_, bind. cbv zeta.
  destruct (bulk_batches_results env updateEmbeddings (slices (length updates) 10 updates) [] 0 w)
    as [res [w' [E [rs [Hfst [Hids [Hall Hsnd]]]]]]].
  rewrite E. unfold ret. eexists. exists w'. split; [reflexivity |].
  cbn [bulk_success bulk_results summary bs_total bs_successful bs_failed embeddingsUpdated].
  rewrite (slices_concat (length updates) 10 updates ltac:(lia) (le_n _)) in Hids.
  rewrite Hfst. cbn [app]. split; [reflexivity |]. split; [exact Hids |].
  assert (Hlen : length rs = length updates)
    by (rewrite <- (length_map productId rs), Hids, length_map; reflexivity).
  split; [rewrite Hlen; reflexivity |]. split.
  - rewrite <- Nat2Z.inj_add, length_filter_success. reflexivity.
  - rewrite Hsnd, (length_filter_counted rs Hall). lia.
Qed.

(** [executeProductSearch(input)] always resolves and reads no state;
    [totalFound] is the number of products returned, and a failed search
    returns no product, echoes the query as [searchTerms] and carries an
    error. *)
Theorem executeProductSearch_result (env : Env) (input : ProductSearchInput) (w : World) :
  exists r, executeProductSearch env input w = (Ok r, w) /\
    totalFound r = Z.of_nat (length (s_products r)) /\
    (s_success r = false -> s_products r = [] /\ searchTerms r = query input /\ s_error r <> None).
Proof.
  assert (Hs : forall vec topK minScore filt, exists r,
             searchProducts env vec topK minScore filt w = (r, w)).
  { intros. unfold searchProducts, pinecone_query, guard_pc, bind, get, ret, throw.
    destruct (pinecone_ok env OpQuery); eexists; reflexivity. }
  unfold executeProductSearch, catch_, bind, generateEmbedding, ret, throw. cbv zeta.
  match goal with |- context [ollama_embed env ?t] => destruct (ollama_embed env t) as [[| x xs] |] end.
  2: { match goal with
       | |- context [searchProducts env ?a ?b ?c ?d w] =>
           destruct (Hs a b c d) as [[rs | m] E]; rewrite E; [destruct (formatResults rs) |]
       end.
       all: eexists; (split; [reflexivity |]); cbn; (split; [reflexivity |]); try discriminate.
       all: intros _; repeat split; discriminate. }
  all: eexists; (split; [reflexivity |]); cbn; (split; [reflexivity |]).
  all: intros _; repeat split; discriminate.
Qed.

(** ** InventoryAgent *)

Lemma executeInventoryUpdate_found (env : Env) (pid : string) (q : Z) (upd : bool) (w : World)
  (p : Product) :
  db_ok env OpGetProduct = true -> db_ok env OpUpdateInventory = true -> products w !! pid = Some p ->
  exists act w', executeInventoryUpdate env (mkUpdateInput pid q upd) w
    = (Ok (mkUpdateResult true pid (quantity p) q (Some (mkStatusChange (isActive p) (q >? 0) act)) None),
       w').
Proof.
  intros Hdb1 Hdb2 Hp.
  cbv beta iota zeta delta [executeInventoryUpdate getProduct updateInventory prisma_update guard_db
                            bind get put ret throw set_products catch_].
  cbn [in_productId in_quantity in_updateEmbedding]. rewrite Hdb1, Hp, Hdb2, Hp. cbv beta iota.
  destruct upd.
  - match goal with
    | |- context [embedding_sync ?e ?i ?c ?u ?a ?b ?d ?f ?s] =>
        destruct (embedding_sync e i c u a b d f s) as [[act | m] w2]
    end; eexists; eexists; reflexivity.
  - eexists; eexists; reflexivity.
Qed.

(** [processInventoryUpdate(id, 0)] on an existing product (the catalog reads
    and the update succeeding) succeeds, and recommends emergency restocking
    and checking backorders, preceded by "Consider restocking this product"
    exactly when the product was active before the update. *)
Theorem processInventoryUpdate_out_of_stock (env : Env) (pid : string) (w : World) (p : Product) :
  db_ok env OpGetProduct = true -> db_ok env OpUpdateInventory = true -> products w !! pid = Some p ->
  exists r w', processInventoryUpdate env pid 0 w = (Ok r, w') /\ au_success r = true /\
    recommendations r
      = Some ((if isActive p then ["Consider restocking this product"] else [])
              ++ ["Product is out of stock - consider emergency restocking";
                  "Check for customer backorders"]).
Proof.
  intros Hdb1 Hdb2 Hp.
  destruct (executeInventoryUpdate_found env pid 0 true w p Hdb1 Hdb2 Hp) as [act [w' E]].
  unfold processInventoryUpdate, catch_, bind. rewrite E. cbn -[String.concat String.append].
  destruct (isActive p), act; cbn -[String.concat String.append];
    eexists; eexists; (split; [reflexivity |]); split; reflexivity.
Qed.


Lemma maintain_product_counts (env : Env) (t : Z) (product : Product) (c : Z * Z) :
  returns_in (fun c' =>
      fst c <= fst c' <= fst c + (if quantity product <=? 0 then 1 else 0) /\
      snd c <= snd c' <= snd c + (if hasEmbedding product then 1 else 0))
    (maintain_product env t product c).
Proof.
  destruct c as [d r]. unfold maintain_product. cbn [fst snd].
  apply returns_in_catch; [| intros m; apply returns_in_ret; cbn [fst snd];
                             destruct (quantity product <=? 0), (hasEmbedding product); lia].
  apply (returns_in_bind (fun d' => d <= d' <= d + (if quantity product <=? 0 then 1 else 0))).
  - destruct ((quantity product <=? 0) && isActive product) eqn:E.
    + apply andb_prop in E. destruct E as [E _]. rewrite E. returns_walk. lia.
    + returns_walk. destruct (quantity product <=? 0); lia.
  - intros d' Hd'. apply returns_in_catch; [| intros m; apply returns_in_ret; cbn [fst snd];
                                             destruct (hasEmbedding product); lia].
    destruct ((quantity product <? t) && hasEmbedding product && truthy (pineconeId product)) eqn:E.
    + apply andb_prop in E. destruct E as [E _]. apply andb_prop in E. destruct E as [_ E].
      rewrite E. destruct (pineconeId product); returns_walk; cbn [fst snd]; lia.
    + returns_walk. cbn [fst snd]. destruct (hasEmbedding product); lia.
Qed.

Lemma foldM_maintain_counts (env : Env) (t : Z) (batch : list Product) (c : Z * Z) :
  returns_in (fun c' =>
      fst c <= fst c' <= fst c + Z.of_nat (length (List.filter (fun p => quantity p <=? 0) batch)) /\
      snd c <= snd c' <= snd c + Z.of_nat (length (List.filter hasEmbedding batch)))
    (foldM (maintain_product env t) batch c).
Proof.
  revert c. induction batch as [| p batch IH]; intros c; cbn [foldM].
  - apply returns_in_ret. cbn. lia.
  - apply (returns_in_bind _ _ _ _ (maintain_product_counts env t p c)).
    intros c1 H1. eapply returns_in_weaken; [apply IH |]. intros c2 H2. cbv beta in H2.
    cbn [List.filter]. destruct (quantity p <=? 0), (hasEmbedding p); cbn [length] in *; lia.
Qed.

Lemma foldM_batches_maintain_counts (env : Env) (t : Z) (batches : list (list Product)) (c : Z * Z) :
  returns_in (fun c' =>
      fst c <= fst c'
        <= fst c + Z.of_nat (length (List.filter (fun p => quantity p <=? 0) (concat batches))) /\
      snd c <= snd c' <= snd c + Z.of_nat (length (List.filter hasEmbedding (concat batches))))
    (foldM (fun batch c => foldM (maintain_product env t) batch c) batches c).
Proof.
  revert c. induction batches as [| b bs IH]; intros c; cbn [foldM concat].
  - apply returns_in_ret. cbn. lia.
  - apply (returns_in_bind _ _ _ _ (foldM_maintain_counts env t b c)).
    intros c1 H1. eapply returns_in_weaken; [apply IH |]. intros c2 H2. cbv beta in H2.
    rewrite !List.filter_app, !length_app. lia.
Qed.

(** [performLowStockMaintenance()], when it succeeds, has processed every
    active product below the threshold ([processed] is their number, read
    before any change); it deactivated at most the ones among them at
    quantity 0 or below, and removed at most the embeddings of the ones
    among them that had one. *)
Theorem performLowStockMaintenance_counts (env : Env) (w w' : World) (r : MaintenanceResult) :
  performLowStockMaintenance env w = (Ok r, w') -> mt_success r = true ->
  let low := List.filter (fun p => (quantity p <? LOW_STOCK_THRESHOLD env) && isActive p) (rows w) in
  mt_processed r = Z.of_nat (length low) /\
  0 <= deactivated r <= Z.of_nat (length (List.filter (fun p => quantity p <=? 0) low)) /\
  0 <= embeddingsRemoved r <= Z.of_nat (length (List.filter hasEmbedding low)).
Proof.
  intros H Hs low.
  unfold performLowStockMaintenance, getLowStockProducts in H. unfold_run.
  destruct (db_ok env OpGetAllProducts); [| injection H as <- _; discriminate].
  cbv beta iota in H. fold low in H.
  match type of H with
  | context [foldM ?f ?l ?b ?s] => pose proof (foldM_batches_maintain_counts env (LOW_STOCK_THRESHOLD env) l b) as Hc;
                                    destruct (foldM f l b s) as [[c | m] w1] eqn:F
  end.
  2: { injection H as <- _. discriminate. }
  injection H as <- _. specialize (Hc _ _ _ F). cbv beta in Hc. cbn [fst snd] in Hc.
  rewrite (slices_concat (length low) 50 low ltac:(lia) (le_n _)) in Hc.
  cbn [mt_processed deactivated embeddingsRemoved]. split; [reflexivity | lia].
Qed.

Lemma foldM_app {A B} (f : A -> B -> M B) (l1 l2 : list A) (b : B) (w : World) :
  foldM f (l1 ++ l2) b w = bind (foldM f l1 b) (fun b' => foldM f l2 b') w.
Proof.
  revert b w. induction l1 as [| x l1 IH]; intros b w; cbn [foldM app]; [reflexivity |].
  unfold bind. destruct (f x b w) as [[c | m] w1]; [| reflexivity].
  rewrite IH. unfold bind. reflexivity.
Qed.

Lemma foldM_batches {A B} (f : A -> B -> M B) (bs : list (list A)) (b : B) (w : World) :
  foldM (fun batch c => foldM f batch c) bs b w = foldM f (concat bs) b w.
Proof.
  revert b w. induction bs as [| x bs IH]; intros b w; cbn [foldM concat]; [reflexivity |].
  rewrite foldM_app. unfold bind. destruct (foldM f x b w) as [[c | m] w1]; [apply IH | reflexivity].
Qed.

Lemma sync_active_counts (env : Env) (product : Product) (c : Z * Z) :
  returns_in (fun c' => fst c <= fst c' /\ snd c <= snd c' /\ fst c' + snd c' <= fst c + snd c + 1)
    (sync_active env product c).
Proof.
  destruct c as [a u]. unfold sync_active. cbn [fst snd]. returns_walk; cbn [fst snd]; try lia.
  destruct (hasEmbedding product); cbn; lia.
Qed.

Lemma foldM_sync_active_counts (env : Env) (l : list Product) (c : Z * Z) :
  returns_in (fun c' => fst c <= fst c' /\ snd c <= snd c' /\
                        fst c' + snd c' <= fst c + snd c + Z.of_nat (length l))
    (foldM (sync_active env) l c).
Proof.
  revert c. induction l as [| p l IH]; intros c; cbn [foldM].
  - apply returns_in_ret. cbn. lia.
  - apply (returns_in_bind _ _ _ _ (sync_active_counts env p c)).
    intros c1 H1. eapply returns_in_weaken; [apply IH |]. intros c2 H2. cbv beta in H2. cbn [length]. lia.
Qed.

Lemma sync_inactive_counts (env : Env) (product : Product) (r : Z) :
  returns_in (fun r' => r <= r' <= r + 1) (sync_inactive env product r).
Proof.
  unfold sync_inactive. returns_walk_m; lia.
Qed.

Lemma foldM_sync_inactive_counts (env : Env) (l : list Product) (r : Z) :
  returns_in (fun r' => r <= r' <= r + Z.of_nat (length l)) (foldM (sync_inactive env) l r).
Proof.
  revert r. induction l as [| p l IH]; intros r; cbn [foldM].
  - apply returns_in_ret. lia.
  - apply (returns_in_bind _ _ _ _ (sync_inactive_counts env p r)).
    intros r1 H1. eapply returns_in_weaken; [apply IH |]. intros r2 H2. cbv beta in H2. cbn [length]. lia.
Qed.

Lemma length_getAllProducts_rows (isActive_ hasStock : bool) (w : World) :
  length (take 100 (drop 0 (fold_right insert_by_updatedAt []
     (List.filter (fun p => Bool.eqb (isActive p) isActive_ &&
                            (if hasStock then quantity p >? 0 else true) &&
                            (if truthy None then opt_str_eqb (category p) None else true)) (rows w)))))
  = Nat.min 100 (length (List.filter (fun p => Bool.eqb (isActive p) isActive_ &&
                                             (if hasStock then quantity p >? 0 else true)) (rows w))).
Proof.
  rewrite length_take, drop_0, length_sorted_products. f_equal. f_equal.
  apply filter_ext. intros p. cbn. apply andb_true_r.
Qed.

(** [syncAllEmbeddings()], when it succeeds, has processed the active
    products in stock and the inactive products, at most 100 of each (the
    default [limit] of [getAllProducts]); [added + updated] is at most the
    number of active ones and [removed] at most the number of inactive ones. *)
Theorem syncAllEmbeddings_counts (env : Env) (w w' : World) (r : SyncResult) :
  syncAllEmbeddings env w = (Ok r, w') -> sy_success r = true ->
  let nA := Nat.min 100 (length (List.filter (fun p => isActive p && (quantity p >? 0)) (rows w))) in
  let nI := Nat.min 100 (length (List.filter (fun p => negb (isActive p)) (rows w))) in
  sy_processed r = Z.of_nat (nA + nI) /\
  0 <= sy_added r /\ 0 <= sy_updated r /\ sy_added r + sy_updated r <= Z.of_nat nA /\
  0 <= sy_removed r <= Z.of_nat nI.
Proof.
  intros H Hs nA nI.
  assert (EA : nA = Nat.min 100 (length (List.filter (fun p => Bool.eqb (isActive p) true &&
                                             (if true then quantity p >? 0 else true)) (rows w)))).
  { unfold nA. f_equal. f_equal. apply filter_ext. intros p. destruct (isActive p); reflexivity. }
  assert (EI : nI = Nat.min 100 (length (List.filter (fun p => Bool.eqb (isActive p) false &&
                                             (if false then quantity p >? 0 else true)) (rows w)))).
  { unfold nI. f_equal. f_equal. apply filter_ext. intros p. destruct (isActive p); reflexivity. }
  rewrite <- length_getAllProducts_rows in EA, EI. cbv beta iota in EA, EI.
  unfold syncAllEmbeddings, getAllProducts in H. unfold_run.
  destruct (db_ok env OpGetAllProducts); [| injection H as <- _; discriminate].
  cbv beta iota in H.
  rewrite foldM_batches, slices_concat in H; [| lia | lia].
  match type of H with
  | context [foldM (sync_active env) ?l ?b ?s] =>
      pose proof (foldM_sync_active_counts env l b) as Ha;
      destruct (foldM (sync_active env) l b s) as [[c | m] w1] eqn:F
  end.
  2: { injection H as <- _. discriminate. }
  specialize (Ha _ _ _ F). cbv beta in Ha. cbn [fst snd] in Ha.
  cbv beta iota in H.
  rewrite foldM_batches, slices_concat in H; [| lia | lia].
  match type of H with
  | context [foldM (sync_inactive env) ?l ?b ?s] =>
      pose proof (foldM_sync_inactive_counts env l b) as Hr;
      destruct (foldM (sync_inactive env) l b s) as [[k | m] w2] eqn:F2
  end.
  2: { injection H as <- _. discriminate. }
  specialize (Hr _ _ _ F2). cbv beta in Hr.
  injection H as <- _. cbn [sy_processed sy_added sy_updated sy_removed].
  cbv beta iota delta [truthy] in EA, EI, Ha, Hr |- *. rewrite EA, EI. lia.
Qed.

(** [processMessage] keeps at most 20 messages of history: after an exchange
    the history is a suffix of the previous one followed by the user message
    and the response, and older messages are dropped exactly when the
    previous history had more than 18. *)
Theorem record_exchange_bounded (history : list ChatMessage) (userMessage response : string) :
  exists dropped kept,
    history = dropped ++ kept /\
    record_exchange history userMessage response
      = kept ++ [mkChatMessage "user" userMessage; mkChatMessage "assistant" response] /\
    (length (record_exchange history userMessage response) <= 20)%nat /\
    (dropped = [] <-> (length history <= 18)%nat).
Proof.
  unfold record_exchange, slice_last. rewrite <- app_assoc. cbn [app].
  rewrite length_app. cbn [length].
  destruct (Nat.ltb 20 (length history + 2)) eqn:E.
  - apply Nat.ltb_lt in E.
    exists (take (length history - 14) history), (drop (length history - 14) history).
    replace (length history + 2 - 16)%nat with (length history - 14)%nat by lia.
    rewrite drop_app_le by lia.
    split; [symmetry; apply take_drop |]. split; [reflexivity |]. split.
    + rewrite length_app, length_drop. cbn [length]. lia.
    + split; [| lia]. intros Ht. apply (f_equal length) in Ht.
      rewrite length_take in Ht. cbn [length] in Ht. lia.
  - apply Nat.ltb_ge in E. exists [], history.
    split; [reflexivity |]. split; [reflexivity |]. split.
    + rewrite length_app. cbn [length]. lia.
    + split; [intros _; lia | reflexivity].
Qed.

(** ** Instances of the properties above on the sample catalog and index *)

Lemma searchByCategory_results_witness :
  exists rs w',
    searchByCategory sample_env [1; 2; 3] "audio" 5 indexed_world = (Ok rs, w') /\
    length rs = 1%nat /\
    forall r, In r rs -> exists m, sr_metadata r = Some m /\ Metadata.category m = "audio" /\
      Metadata.isActive m = true /\ Metadata.quantity m > 0 /\ (7 # 10 <= sr_score r)%Q.
Proof.
  eexists. eexists. split; [vm_compute; reflexivity |]. split; [vm_compute; reflexivity |].
  eapply (searchByCategory_results sample_env [1; 2; 3] "audio" 5 indexed_world _ _).
  vm_compute. reflexivity.
Defined.

Lemma searchByBrand_results_witness :
  exists rs w',
    searchByBrand sample_env [1; 2; 3] "Acme" 5 indexed_world = (Ok rs, w') /\
    length rs = 1%nat /\
    forall r, In r rs -> exists m, sr_metadata r = Some m /\ Metadata.brand m = "Acme" /\
      Metadata.isActive m = true /\ Metadata.quantity m > 0 /\ (7 # 10 <= sr_score r)%Q.
Proof.
  eexists. eexists. split; [vm_compute; reflexivity |]. split; [vm_compute; reflexivity |].
  eapply (searchByBrand_results sample_env [1; 2; 3] "Acme" 5 indexed_world _ _).
  vm_compute. reflexivity.
Defined.

Lemma searchByPriceRange_results_witness :
  exists rs w',
    searchByPriceRange sample_env [1; 2; 3] 40 50 5 indexed_world = (Ok rs, w') /\
    length rs = 1%nat /\
    forall r, In r rs -> exists m, sr_metadata r = Some m /\ 40 <= Metadata.price m <= 50 /\
      Metadata.isActive m = true /\ Metadata.quantity m > 0 /\ (7 # 10 <= sr_score r)%Q.
Proof.
  eexists. eexists. split; [vm_compute; reflexivity |]. split; [vm_compute; reflexivity |].
  eapply (searchByPriceRange_results sample_env [1; 2; 3] 40 50 5 indexed_world _ _).
  vm_compute. reflexivity.
Defined.

Lemma searchProducts_caller_filter_witness :
  exists rs w',
    searchProducts sample_env [1; 2; 3] 5 (6 # 10) [("category", [FEq (VStr "audio")])] indexed_world
      = (Ok rs, w') /\
    length rs = 1%nat /\
    forall r, In r rs ->
      matches_filter (sr_metadata r) [("category", [FEq (VStr "audio")])] = true /\
      (~ In "isActive" (map fst [("category", [FEq (VStr "audio")])]) ->
         exists m, sr_metadata r = Some m /\ Metadata.isActive m = true) /\
      (~ In "quantity" (map fst [("category", [FEq (VStr "audio")])]) ->
         exists m, sr_metadata r = Some m /\ Metadata.quantity m > 0).
Proof.
  eexists. eexists. split; [vm_compute; reflexivity |]. split; [vm_compute; reflexivity |].
  eapply (searchProducts_caller_filter sample_env [1; 2; 3] 5 (6 # 10)
           [("category", [FEq (VStr "audio")])] indexed_world _ _).
  - apply (bool_decide_unpack _). vm_compute. reflexivity.
  - vm_compute. reflexivity.
Defined.

Lemma searchProducts_ranked_witness :
  exists rs w',
    searchProducts sample_env [1; 2; 3] 5 (6 # 10) [] indexed_world = (Ok rs, w') /\
    w' = indexed_world /\ (length rs <= Z.to_nat 5)%nat /\
    (forall r, In r rs -> (6 # 10 <= sr_score r)%Q) /\
    StronglySorted (fun r1 r2 => sr_score r2 <= sr_score r1)%Q rs.
Proof.
  eexists. eexists. split; [vm_compute; reflexivity |].
  eapply (searchProducts_ranked sample_env [1; 2; 3] 5 (6 # 10) [] indexed_world _ _).
  vm_compute. reflexivity.
Defined.

Lemma upsert_then_delete_witness :
  exists u b w1 w2,
    upsertProduct sample_env speaker [1; 2; 3] empty_world = (Ok u, w1) /\
    deleteProduct sample_env (vector_id speaker) w1 = (Ok b, w2) /\
    w2 = set_index empty_world (delete (vector_id speaker) (index empty_world)) /\
    (index empty_world !! vector_id speaker = None -> w2 = empty_world).
Proof.
  do 4 eexists. split; [vm_compute; reflexivity |]. split; [vm_compute; reflexivity |].
  eapply (upsert_then_delete sample_env speaker [1; 2; 3] empty_world _ _ _ _);
    vm_compute; reflexivity.
Defined.

Lemma deleteProducts_effect_witness :
  exists b w',
    deleteProducts sample_env ["product_p2"] indexed_world = (Ok b, w') /\
    products w' = products indexed_world /\ jobs w' = jobs indexed_world /\
    (forall k, In k ["product_p2"] -> index w' !! k = None) /\
    (forall k, ~ In k ["product_p2"] -> index w' !! k = index indexed_world !! k).
Proof.
  eexists. eexists. split; [vm_compute; reflexivity |].
  eapply (deleteProducts_effect sample_env ["product_p2"] indexed_world _ _).
  vm_compute. reflexivity.
Defined.

Lemma generateBatchEmbeddings_spec_witness :
  exists r w',
    generateBatchEmbeddings ollama_down_env ["speaker"; "headphones"] empty_world = (r, w') /\
    w' = empty_world /\
    match r with
    | Ok es => Forall2 (fun t e => ollama_embed ollama_down_env t = Some e /\ e <> [])
                       ["speaker"; "headphones"] es
    | Throw _ => Exists (fun t => match ollama_embed ollama_down_env t with
                                  | Some (_ :: _) => False | _ => True end)
                        ["speaker"; "headphones"]
    end.
Proof.
  eexists. eexists. split; [vm_compute; reflexivity |].
  eapply (generateBatchEmbeddings_spec ollama_down_env ["speaker"; "headphones"] empty_world _ _).
  vm_compute. reflexivity.
Defined.

Lemma prepareTextForEmbedding_charset_witness :
  In "h"%char (list_ascii_of_string (prepareTextForEmbedding "Hi!")) /\
  ((97 <= nat_of_ascii "h" <= 122)%nat \/ (48 <= nat_of_ascii "h" <= 57)%nat \/
   In (nat_of_ascii "h") [95; 32; 45; 46; 44; 33; 63]%nat).
Proof.
  split; [vm_compute; left; reflexivity |].
  apply (prepareTextForEmbedding_charset "Hi!" "h"). vm_compute. left. reflexivity.
Defined.

Lemma getProductStats_bounds_witness :
  exists s w',
    getProductStats sample_env catalog_world = (Ok s, w') /\
    w' = catalog_world /\
    0 <= activeProducts s <= totalProducts s /\
    0 <= productsWithEmbeddings s <= totalProducts s /\
    0 <= lowStockProducts_ s /\ 0 <= outOfStockProducts_ s /\
    lowStockProducts_ s + outOfStockProducts_ s <= totalProducts s /\
    (0 <= embeddingCoverage s <= 100)%Q.
Proof.
  eexists. eexists. split; [vm_compute; reflexivity |].
  eapply (getProductStats_bounds sample_env catalog_world _ _).
  vm_compute. reflexivity.
Defined.

Lemma getCategories_spec_witness :
  exists cs w',
    getCategories sample_env catalog_world = (Ok cs, w') /\ cs = ["audio"] /\
    w' = catalog_world /\ NoDup cs /\ Sorted (fun a b => String.leb a b = true) cs /\
    (forall c, In c cs <-> c <> "" /\
       exists p, In p (rows catalog_world) /\ isActive p = true /\ category p = Some c).
Proof.
  eexists. eexists. split; [vm_compute; reflexivity |]. split; [vm_compute; reflexivity |].
  eapply (getCategories_spec sample_env catalog_world _ _).
  vm_compute. reflexivity.
Defined.

Lemma getBrands_spec_witness :
  exists bs w',
    getBrands sample_env catalog_world = (Ok bs, w') /\ bs = ["Acme"] /\
    w' = catalog_world /\ NoDup bs /\ Sorted (fun a b => String.leb a b = true) bs /\
    (forall b, In b bs <-> b <> "" /\
       exists p, In p (rows catalog_world) /\ isActive p = true /\ brand p = Some b).
Proof.
  eexists. eexists. split; [vm_compute; reflexivity |]. split; [vm_compute; reflexivity |].
  eapply (getBrands_spec sample_env catalog_world _ _).
  vm_compute. reflexivity.
Defined.


Lemma getProductBySku_spec_witness :
  getProductBySku sample_env "SKU-2" catalog_world = (Ok (Some speaker), catalog_world) /\
  (catalog_world = catalog_world /\ In speaker (rows catalog_world) /\ sku speaker = "SKU-2").
Proof.
  split; [vm_compute; reflexivity |].
  apply (getProductBySku_spec sample_env "SKU-2" catalog_world catalog_world (Some speaker)).
  vm_compute. reflexivity.
Defined.

Lemma executeInventoryUpdate_missing_witness :
  executeInventoryUpdate sample_env (mkUpdateInput "p9" 3 true) catalog_world
    = (Ok (mkUpdateResult false "p9" 0 3 None (Some "Product not found")), catalog_world).
Proof.
  apply (executeInventoryUpdate_missing sample_env (mkUpdateInput "p9" 3 true) catalog_world);
    vm_compute; reflexivity.
Defined.

Lemma executeInventoryCheck_flags_witness :
  exists r w' cp,
    executeInventoryCheck sample_env (mkCheckInput (Some "p2") None 5) catalog_world = (Ok r, w') /\
    ck_product r = Some cp /\ (isLowStock cp, isOutOfStock cp) = (true, false) /\
    w' = catalog_world /\ (isOutOfStock cp = true <-> cp_quantity cp <= 0) /\
    (isLowStock cp = true <-> 0 < cp_quantity cp < ck_threshold (mkCheckInput (Some "p2") None 5)) /\
    ~ (isLowStock cp = true /\ isOutOfStock cp = true).
Proof.
  do 3 eexists. split; [vm_compute; reflexivity |]. split; [vm_compute; reflexivity |].
  split; [vm_compute; reflexivity |].
  eapply (executeInventoryCheck_flags sample_env (mkCheckInput (Some "p2") None 5) catalog_world _ _ _);
    vm_compute; reflexivity.
Defined.

Lemma executeInventoryCheck_low_stock_list_witness :
  exists l, executeInventoryCheck sample_env (mkCheckInput None None 5) catalog_world
              = (Ok (mkCheckResult true None (Some l) None), catalog_world) /\
    forall e, In e l <-> exists p, In p (rows catalog_world) /\ isActive p = true /\
                                   quantity p < ck_threshold (mkCheckInput None None 5) /\
                                   e = mkLowStockEntry (id p) (name p) (sku p) (quantity p).
Proof.
  apply (executeInventoryCheck_low_stock_list sample_env (mkCheckInput None None 5) catalog_world);
    vm_compute; reflexivity.
Defined.

Lemma executeInventoryCheck_by_id_witness :
  executeInventoryCheck sample_env (mkCheckInput (Some "p9") (Some "SKU-2") 5) catalog_world
    = executeInventoryCheck sample_env (mkCheckInput (Some "p9") None 5) catalog_world /\
  (db_ok sample_env OpGetProduct = true -> products catalog_world !! "p9" = None ->
   executeInventoryCheck sample_env (mkCheckInput (Some "p9") (Some "SKU-2") 5) catalog_world
     = (Ok (mkCheckResult false None None (Some "Product not found")), catalog_world)).
Proof.
  apply (executeInventoryCheck_by_id sample_env "p9" (Some "SKU-2") None 5 catalog_world).
  vm_compute. discriminate.
Defined.

Lemma processInventoryUpdate_out_of_stock_witness :
  exists r w', processInventoryUpdate sample_env "p2" 0 catalog_world = (Ok r, w') /\
    au_success r = true /\
    recommendations r
      = Some ((if isActive speaker then ["Consider restocking this product"] else [])
              ++ ["Product is out of stock - consider emergency restocking";
                  "Check for customer backorders"]).
Proof.
  apply (processInventoryUpdate_out_of_stock sample_env "p2" catalog_world speaker);
    vm_compute; reflexivity.
Defined.

Lemma performLowStockMaintenance_counts_witness :
  exists r w',
    performLowStockMaintenance sample_env catalog_world = (Ok r, w') /\
    (mt_processed r, deactivated r, embeddingsRemoved r) = (2, 1, 1) /\
    let low := List.filter (fun p => (quantity p <? LOW_STOCK_THRESHOLD sample_env) && isActive p)
                           (rows catalog_world) in
    mt_processed r = Z.of_nat (length low) /\
    0 <= deactivated r <= Z.of_nat (length (List.filter (fun p => quantity p <=? 0) low)) /\
    0 <= embeddingsRemoved r <= Z.of_nat (length (List.filter hasEmbedding low)).
Proof.
  eexists. eexists. split; [vm_compute; reflexivity |]. split; [vm_compute; reflexivity |].
  eapply (performLowStockMaintenance_counts sample_env catalog_world _ _); vm_compute; reflexivity.
Defined.

Lemma syncAllEmbeddings_counts_witness :
  exists r w',
    syncAllEmbeddings sample_env catalog_world = (Ok r, w') /\
    (sy_processed r, sy_added r, sy_updated r, sy_removed r) = (1, 0, 1, 0) /\
    let nA := Nat.min 100 (length (List.filter (fun p => isActive p && (quantity p >? 0))
                                               (rows catalog_world))) in
    let nI := Nat.min 100 (length (List.filter (fun p => negb (isActive p)) (rows catalog_world))) in
    sy_processed r = Z.of_nat (nA + nI) /\
    0 <= sy_added r /\ 0 <= sy_updated r /\ sy_added r + sy_updated r <= Z.of_nat nA /\
    0 <= sy_removed r <= Z.of_nat nI.
Proof.
  eexists. eexists. split; [vm_compute; reflexivity |]. split; [vm_compute; reflexivity |].
  eapply (syncAllEmbeddings_counts sample_env catalog_world _ _); vm_compute; reflexivity.
Defined.
